(** * Outbound-call resilience core of federal-bills-explainer

    A shallow embedding of [fbx_core/utils/rate_limiter.py]: the token
    bucket, the three-state circuit breaker, the statistics record and the
    retrying [RateLimiter.execute] orchestrator, followed by the properties
    the specification states about them.

    Modelling conventions.
    - Python [int] is [Z]; Python [float] (rates, token balances, durations,
      clock readings) is idealised as an exact rational [Q], so every
      arithmetic identity below is about the algorithm and not about
      binary64 rounding.  Equalities between rationals are stated with
      [==] ([Qeq]) unless both sides are the same expression.  That the
      [consume] made after sleeping the reported wait admits is a fact of
      exact arithmetic only; [admitted_after_wait] reads it off the trace
      for the statements that take it as a hypothesis instead.
    - Both clocks are explicit: [time.monotonic()] and [datetime.now()]
      (as seconds) are readings of a [Clock] value that [time.sleep]
      advances.
    - The locks only delimit critical sections; one caller is modelled, so
      they do not appear.  Logging has no effect on the state and is left out.
    - Exceptions that [except Exception] catches are values of [PyExc],
      those it lets through are values of [BaseExc]; a fallible step
      returns a sum. *)

From Stdlib Require Import ZArith QArith Qminmax Qpower Lia Lqa List String Bool.
Import ListNotations.

Local Open Scope Z_scope.
Local Open Scope Q_scope.

(** ** Exceptions and configuration *)

(** The exceptions that travel through [execute]: the plain [Exception]s it
    raises itself or receives from the callable, the [ZeroDivisionError] of
    [needed / self.rate], and the [ValueError] of [time.sleep] on a negative
    length. *)
Inductive PyExc : Type :=
| Exception (msg : string)
| ZeroDivisionError
| ValueError.

Inductive CircuitState : Type :=
| CLOSED
| OPEN
| HALF_OPEN.

Record RateLimitConfig : Type := mkConfig {
  requests_per_second : Q;
  burst_size : Z;
  max_retries : Z;
  initial_backoff : Q;
  max_backoff : Q;
  backoff_multiplier : Q;
  failure_threshold : Z;
  recovery_timeout : Q;
  half_open_max_calls : Z;
  log_rate_limits : bool;
  log_circuit_state : bool
}.

(** The dataclass defaults. *)
Definition default_config : RateLimitConfig :=
  {| requests_per_second := 10; burst_size := 20;
     max_retries := 3; initial_backoff := 1; max_backoff := 60;
     backoff_multiplier := 2;
     failure_threshold := 5; recovery_timeout := 60; half_open_max_calls := 3;
     log_rate_limits := true; log_circuit_state := true |}.

(** ** Token bucket *)

Module TokenBucket.

Record t : Type := mk {
  rate : Q;
  capacity : Z;
  tokens : Q;
  last_update : Q
}.

(** [__init__]: a full bucket stamped with the monotonic reading [now]. *)
Definition init (rate : Q) (capacity : Z) (now : Q) : t :=
  {| rate := rate; capacity := capacity;
     tokens := inject_Z capacity; last_update := now |}.

(** The balance after the refill step of [consume] at reading [now]. *)
Definition refilled (b : t) (now : Q) : Q :=
  let elapsed := now - last_update b in
  Qmin (inject_Z (capacity b)) (tokens b + elapsed * rate b).

(** [consume(tokens=n)] at monotonic reading [now].  The refill and the
    stamp happen first on every path; the division raises when the rate
    is zero. *)
Definition consume (b : t) (now : Q) (n : Z) : t * (PyExc + bool * Q) :=
  let toks := refilled b now in
  if Qle_bool (inject_Z n) toks then
    ({| rate := rate b; capacity := capacity b;
        tokens := toks - inject_Z n; last_update := now |},
     inr (true, 0))
  else
    let b' := {| rate := rate b; capacity := capacity b;
                 tokens := toks; last_update := now |} in
    let needed := inject_Z n - toks in
    if Qeq_bool (rate b) 0 then (b', inl ZeroDivisionError)
    else (b', inr (false, needed / rate b)).

(** A sequence of [consume] calls, each with its clock reading and its
    request size; the buckets observed after each call, in order.  A call
    that raises still leaves its refilled bucket behind. *)
Fixpoint observe (b : t) (calls : list (Q * Z)) : list t :=
  match calls with
  | [] => []
  | (now, n) :: rest =>
      let b' := fst (consume b now n) in
      b' :: observe b' rest
  end.

(** The readings of a call sequence never go back, starting from [from]. *)
Fixpoint clock_nondecreasing (from : Q) (calls : list (Q * Z)) : Prop :=
  match calls with
  | [] => True
  | (now, _) :: rest => from <= now /\ clock_nondecreasing now rest
  end.

(** The answers of a sequence of [consume] calls, in order. *)
Fixpoint answers (b : t) (calls : list (Q * Z)) : list (PyExc + bool * Q) :=
  match calls with
  | [] => []
  | (now, n) :: rest =>
      let (b', a) := consume b now n in
      a :: answers b' rest
  end.

(** The tokens handed out by a sequence of [consume] calls: the sizes of
    the requests that were admitted, added up. *)
Fixpoint admitted_total (b : t) (calls : list (Q * Z)) : Z :=
  match calls with
  | [] => 0%Z
  | (now, n) :: rest =>
      let (b', a) := consume b now n in
      ((match a with inr (true, _) => n | _ => 0 end)
       + admitted_total b' rest)%Z
  end.

(** The reading of the last call of a sequence, [from] when there is
    none. *)
Fixpoint last_reading (from : Q) (calls : list (Q * Z)) : Q :=
  match calls with
  | [] => from
  | (now, _) :: rest => last_reading now rest
  end.

End TokenBucket.

(** ** Circuit breaker *)

Module CircuitBreaker.

Record t : Type := mk {
  config : RateLimitConfig;
  state : CircuitState;
  failure_count : Z;
  last_failure_time : option Q;
  half_open_calls : Z
}.

Definition init (cfg : RateLimitConfig) : t :=
  {| config := cfg; state := CLOSED; failure_count := 0%Z;
     last_failure_time := None; half_open_calls := 0%Z |}.

Definition _transition_to (cb : t) (new_state : CircuitState) : t :=
  match new_state with
  | HALF_OPEN =>
      {| config := config cb; state := HALF_OPEN;
         failure_count := failure_count cb;
         last_failure_time := last_failure_time cb;
         half_open_calls := 0%Z |}
  | CLOSED =>
      {| config := config cb; state := CLOSED;
         failure_count := 0%Z;
         last_failure_time := last_failure_time cb;
         half_open_calls := 0%Z |}
  | OPEN =>
      {| config := config cb; state := OPEN;
         failure_count := failure_count cb;
         last_failure_time := last_failure_time cb;
         half_open_calls := half_open_calls cb |}
  end.

(** [call_allowed()] when [datetime.now()] reads [now] seconds. *)
Definition call_allowed (cb : t) (now : Q) : t * bool :=
  match state cb with
  | CLOSED => (cb, true)
  | OPEN =>
      match last_failure_time cb with
      | Some t0 =>
          let elapsed := now - t0 in
          if Qle_bool (recovery_timeout (config cb)) elapsed
          then (_transition_to cb HALF_OPEN, true)
          else (cb, false)
      | None => (cb, false)
      end
  | HALF_OPEN =>
      if (half_open_calls cb <? half_open_max_calls (config cb))%Z
      then ({| config := config cb; state := state cb;
               failure_count := failure_count cb;
               last_failure_time := last_failure_time cb;
               half_open_calls := (half_open_calls cb + 1)%Z |}, true)
      else (cb, false)
  end.

Definition record_success (cb : t) : t :=
  let cb1 := match state cb with
             | HALF_OPEN => _transition_to cb CLOSED
             | _ => cb
             end in
  {| config := config cb1; state := state cb1;
     failure_count := 0%Z;
     last_failure_time := last_failure_time cb1;
     half_open_calls := half_open_calls cb1 |}.

Definition record_failure (cb : t) (now : Q) : t :=
  let cb1 := {| config := config cb; state := state cb;
                failure_count := (failure_count cb + 1)%Z;
                last_failure_time := Some now;
                half_open_calls := half_open_calls cb |} in
  match state cb1 with
  | HALF_OPEN => _transition_to cb1 OPEN
  | _ =>
      if (failure_threshold (config cb1) <=? failure_count cb1)%Z
      then _transition_to cb1 OPEN
      else cb1
  end.

(** The three operations a caller can apply, with the wall-clock reading
    the operation takes where it reads the clock. *)
Inductive Op : Type :=
| CallAllowed (now : Q)
| RecordSuccess
| RecordFailure (now : Q).

(** One operation: the breaker after it, and the answer when the operation
    is an admission check. *)
Definition step (cb : t) (op : Op) : t * option bool :=
  match op with
  | CallAllowed now => let (cb', ok) := call_allowed cb now in (cb', Some ok)
  | RecordSuccess => (record_success cb, None)
  | RecordFailure now => (record_failure cb now, None)
  end.

Fixpoint run (cb : t) (ops : list Op) : t :=
  match ops with
  | [] => cb
  | op :: rest => run (fst (step cb op)) rest
  end.

(** Every breaker seen along a run, the starting one first. *)
Fixpoint states (cb : t) (ops : list Op) : list t :=
  cb :: match ops with
        | [] => []
        | op :: rest => states (fst (step cb op)) rest
        end.

(** The number of admission checks answered [true] from [cb] on, counted
    for as long as the breaker stays [HALF_OPEN]: counting stops at the
    first operation issued in another state. *)
Fixpoint half_open_admissions (cb : t) (ops : list Op) : Z :=
  match ops with
  | [] => 0%Z
  | op :: rest =>
      match state cb with
      | HALF_OPEN =>
          let (cb', r) := step cb op in
          ((match r with Some true => 1 | _ => 0 end)
           + half_open_admissions cb' rest)%Z
      | _ => 0%Z
      end
  end.

(** Admission checks at the readings [ts], in order: the breaker after
    them and the answers. *)
Fixpoint checks (cb : t) (ts : list Q) : t * list bool :=
  match ts with
  | [] => (cb, [])
  | now :: rest =>
      let (cb1, ok) := call_allowed cb now in
      let (cb2, oks) := checks cb1 rest in
      (cb2, ok :: oks)
  end.

(** The probe counter stays within its bound while the breaker probes. *)
Definition probes_bounded (cb : t) : Prop :=
  state cb = HALF_OPEN ->
  (half_open_calls cb <= half_open_max_calls (config cb))%Z.

(** The failure counter is never negative and, while the breaker is
    closed, stays under the threshold. *)
Definition count_in_range (cb : t) : Prop :=
  (0 <= failure_count cb)%Z
  /\ (state cb = CLOSED ->
      (failure_count cb < failure_threshold (config cb))%Z).

(** One for an admission check answered [True], zero otherwise. *)
Definition granted (a : option bool) : Z :=
  match a with Some true => 1%Z | _ => 0%Z end.

(** The admission checks answered [True] in the [HALF_OPEN] episode that
    operation [op] opens on [cb]: the answer of [op] itself, which
    [call_allowed] returns after [_transition_to] has set the state, and
    the checks granted from then on for as long as the breaker stays
    [HALF_OPEN]. *)
Definition episode_grants (cb : t) (op : Op) (after : list Op) : Z :=
  (granted (snd (step cb op))
   + half_open_admissions (fst (step cb op)) after)%Z.

(** The bound of [half_open_max_calls] on all the checks answered [True]
    from the moment the breaker enters [HALF_OPEN] until it leaves, for
    every run from [__init__] with [half_open_max_calls >= 1]. *)
Definition half_open_grants_as_stated : Prop :=
  forall (cfg : RateLimitConfig) (before : list Op) (op : Op)
         (after : list Op),
    (1 <= half_open_max_calls cfg)%Z ->
    state (run (init cfg) before) <> HALF_OPEN ->
    state (fst (step (run (init cfg) before) op)) = HALF_OPEN ->
    (episode_grants (run (init cfg) before) op after
     <= half_open_max_calls cfg)%Z.

(** [k] more failures are enough to open (or keep open) the breaker. *)
Definition will_open (cb : t) (k : Z) : Prop :=
  state cb <> CLOSED
  \/ (failure_threshold (config cb) <= failure_count cb + k)%Z.

End CircuitBreaker.

(** ** Statistics *)

Module RateLimitStats.

Record t : Type := mk {
  total_requests : Z;
  successful_requests : Z;
  failed_requests : Z;
  rate_limited_requests : Z;
  circuit_breaker_rejections : Z;
  total_retry_attempts : Z;
  last_request_time : option Q;
  last_failure_time : option Q
}.

Definition init : t :=
  {| total_requests := 0; successful_requests := 0; failed_requests := 0;
     rate_limited_requests := 0; circuit_breaker_rejections := 0;
     total_retry_attempts := 0;
     last_request_time := None; last_failure_time := None |}.

(** [circuit_breaker_rejections += 1] (line 212). *)
Definition rejected (s : t) : t :=
  {| total_requests := total_requests s;
     successful_requests := successful_requests s;
     failed_requests := failed_requests s;
     rate_limited_requests := rate_limited_requests s;
     circuit_breaker_rejections := (circuit_breaker_rejections s + 1)%Z;
     total_retry_attempts := total_retry_attempts s;
     last_request_time := last_request_time s;
     last_failure_time := last_failure_time s |}.

(** [rate_limited_requests += 1] (line 224). *)
Definition rate_limited (s : t) : t :=
  {| total_requests := total_requests s;
     successful_requests := successful_requests s;
     failed_requests := failed_requests s;
     rate_limited_requests := (rate_limited_requests s + 1)%Z;
     circuit_breaker_rejections := circuit_breaker_rejections s;
     total_retry_attempts := total_retry_attempts s;
     last_request_time := last_request_time s;
     last_failure_time := last_failure_time s |}.

(** [total_requests += 1; last_request_time = now] (lines 237-238). *)
Definition requested (s : t) (now : Q) : t :=
  {| total_requests := (total_requests s + 1)%Z;
     successful_requests := successful_requests s;
     failed_requests := failed_requests s;
     rate_limited_requests := rate_limited_requests s;
     circuit_breaker_rejections := circuit_breaker_rejections s;
     total_retry_attempts := total_retry_attempts s;
     last_request_time := Some now;
     last_failure_time := last_failure_time s |}.

(** [successful_requests += 1] (line 243). *)
Definition succeeded (s : t) : t :=
  {| total_requests := total_requests s;
     successful_requests := (successful_requests s + 1)%Z;
     failed_requests := failed_requests s;
     rate_limited_requests := rate_limited_requests s;
     circuit_breaker_rejections := circuit_breaker_rejections s;
     total_retry_attempts := total_retry_attempts s;
     last_request_time := last_request_time s;
     last_failure_time := last_failure_time s |}.

(** [failed_requests += 1; total_retry_attempts += 1;
    last_failure_time = now] (lines 253-255). *)
Definition failed (s : t) (now : Q) : t :=
  {| total_requests := total_requests s;
     successful_requests := successful_requests s;
     failed_requests := (failed_requests s + 1)%Z;
     rate_limited_requests := rate_limited_requests s;
     circuit_breaker_rejections := circuit_breaker_rejections s;
     total_retry_attempts := (total_retry_attempts s + 1)%Z;
     last_request_time := last_request_time s;
     last_failure_time := Some now |}.

(** [success_rate()]: zero before any request, the quotient otherwise. *)
Definition success_rate (s : t) : Q :=
  if (total_requests s =? 0)%Z then 0
  else inject_Z (successful_requests s) / inject_Z (total_requests s).

(** The books balance between [s] and a later [s'] over [k] requests of
    which [e] ended with an exception the handler does not catch:
    [total_requests] grew by [k]; successes and failures together grew by
    [k - e]; no counter went down; [total_retry_attempts] moved with
    [failed_requests]; [circuit_breaker_rejections] stayed. *)
Definition accounted (s s' : t) (k e : Z) : Prop :=
  total_requests s' = (total_requests s + k)%Z
  /\ (successful_requests s' + failed_requests s' + e
      = successful_requests s + failed_requests s + k)%Z
  /\ (successful_requests s <= successful_requests s')%Z
  /\ (failed_requests s <= failed_requests s')%Z
  /\ (total_retry_attempts s' - failed_requests s'
      = total_retry_attempts s - failed_requests s)%Z
  /\ (rate_limited_requests s <= rate_limited_requests s')%Z
  /\ circuit_breaker_rejections s' = circuit_breaker_rejections s.

End RateLimitStats.

(** ** The environment of one [execute] call *)

(** The two clocks the code reads: [time.monotonic()] and [datetime.now()]
    (in seconds). *)
Record Clock : Type := mkClock {
  monotonic : Q;
  wall : Q
}.

Definition advance (c : Clock) (d : Q) : Clock :=
  {| monotonic := monotonic c + d; wall := wall c + d |}.

(** [time.sleep(d)]: a negative length raises [ValueError], otherwise both
    clocks move on by [d]. *)
Definition sleep (c : Clock) (d : Q) : PyExc + Clock :=
  if Qle_bool 0 d then inr (advance c d) else inl ValueError.

(** The exceptions that are no [Exception]: [except Exception] (line 248)
    lets them through. *)
Inductive BaseExc : Type :=
| KeyboardInterrupt
| SystemExit
| GeneratorExit.

(** What one invocation of the callable does, after running for [duration]
    seconds: it returns a value, raises an [Exception], or raises one of
    the exceptions the handler of [execute] does not catch. *)
Inductive Outcome (T : Type) : Type :=
| Returns (v : T)
| Raises (e : PyExc)
| Escapes (b : BaseExc).
Arguments Returns {T} v.
Arguments Raises {T} e.
Arguments Escapes {T} b.

Record Call (T : Type) : Type := mkCall {
  outcome : Outcome T;
  duration : Q
}.
Arguments mkCall {T} outcome duration.
Arguments outcome {T} c.
Arguments duration {T} c.

(** The callable handed to [execute], by the index of the invocation within
    that [execute] call (a [Mock] with a [side_effect] list). *)
Definition Callable (T : Type) : Type := nat -> Call T.

(** The trace of one [execute] call, in order: the admission check, each
    [consume] with its answer, the rate-limit sleep of line 227, each
    invocation of the callable, and each backoff sleep of line 264 with its
    length and with the value the [backoff] variable holds after line 265. *)
Inductive Event : Type :=
| EvCallAllowed (ok : bool)
| EvConsume (ok : bool) (wait : Q)
| EvConsumeRaised
| EvRateLimitSleep (d : Q)
| EvWork (i : nat)
| EvBackoffSleep (d : Q) (stored : Q).

Definition is_work (e : Event) : bool :=
  match e with EvWork _ => true | _ => false end.

Definition is_call_allowed (e : Event) : bool :=
  match e with EvCallAllowed _ => true | _ => false end.

(** [false] on a [consume] that did not admit (or raised). *)
Definition consume_admitted (e : Event) : bool :=
  match e with
  | EvConsume false _ => false
  | EvConsumeRaised => false
  | _ => true
  end.

Definition every_consume_admits (evs : list Event) : bool :=
  forallb consume_admitted evs.

(** The backoff sleeps of a trace, in order: the length of each and the
    [backoff] stored after it. *)
Fixpoint backoff_sleeps (evs : list Event) : list (Q * Q) :=
  match evs with
  | [] => []
  | EvBackoffSleep d stored :: rest => (d, stored) :: backoff_sleeps rest
  | _ :: rest => backoff_sleeps rest
  end.


(** The invocations and the backoff sleeps of a trace, in order: [inl i] for
    invocation number [i] of the callable, [inr (d, stored)] for a backoff
    sleep. *)
Fixpoint schedule (evs : list Event) : list (nat + Q * Q) :=
  match evs with
  | [] => []
  | EvWork i :: rest => inl i :: schedule rest
  | EvBackoffSleep d stored :: rest => inr (d, stored) :: schedule rest
  | _ :: rest => schedule rest
  end.

(** The backoff sleeps among the entries of a schedule. *)
Fixpoint sleeps_of (s : list (nat + Q * Q)) : list (Q * Q) :=
  match s with
  | [] => []
  | inr p :: rest => p :: sleeps_of rest
  | inl _ :: rest => sleeps_of rest
  end.

(** [paced cfg k s]: the schedule [s] is invocation [k], then a backoff
    sleep of [min(initial_backoff * backoff_multiplier ^ k, max_backoff)]
    that leaves [initial_backoff * backoff_multiplier ^ (k + 1)] stored,
    then invocation [k + 1], and so on in strict alternation; it may stop
    after any entry.  In particular no invocation but the first comes
    without its sleep right before it. *)
Fixpoint paced (cfg : RateLimitConfig) (k : nat) (s : list (nat + Q * Q))
  : Prop :=
  match s with
  | [] => True
  | inl i :: rest =>
      i = k
      /\ match rest with
         | [] => True
         | inr (d, stored) :: rest' =>
             d == Qmin (initial_backoff cfg
                        * backoff_multiplier cfg ^ Z.of_nat k)
                       (max_backoff cfg)
             /\ stored == initial_backoff cfg
                          * backoff_multiplier cfg ^ Z.of_nat (k + 1)
             /\ paced cfg (S k) rest'
         | inl _ :: _ => False
         end
  | inr _ :: _ => False
  end.

Definition work_invocations (evs : list Event) : nat :=
  List.length (filter is_work evs).

(** ** Rate limiter *)

Module RateLimiter.

Record t : Type := mk {
  config : RateLimitConfig;
  token_bucket : TokenBucket.t;
  circuit_breaker : CircuitBreaker.t;
  stats : RateLimitStats.t
}.

(** [__init__], built when [time.monotonic()] reads [now]. *)
Definition init (cfg : RateLimitConfig) (now : Q) : t :=
  {| config := cfg;
     token_bucket :=
       TokenBucket.init (requests_per_second cfg) (burst_size cfg) now;
     circuit_breaker := CircuitBreaker.init cfg;
     stats := RateLimitStats.init |}.

Definition with_bucket (rl : t) (b : TokenBucket.t) : t :=
  {| config := config rl; token_bucket := b;
     circuit_breaker := circuit_breaker rl; stats := stats rl |}.

Definition with_breaker (rl : t) (cb : CircuitBreaker.t) : t :=
  {| config := config rl; token_bucket := token_bucket rl;
     circuit_breaker := cb; stats := stats rl |}.

Definition with_stats (rl : t) (s : RateLimitStats.t) : t :=
  {| config := config rl; token_bucket := token_bucket rl;
     circuit_breaker := circuit_breaker rl; stats := s |}.

(** The state of one [execute] call: the limiter, the clocks, and the
    locals of the retry loop.  [calls] counts the invocations of the
    callable made so far; the code has no such variable, it indexes the
    callable's behaviour. *)
Record Run : Type := mkRun {
  limiter : t;
  clock : Clock;
  retry_count : Z;
  backoff : Q;
  last_exception : option PyExc;
  calls : nat
}.

Definition set_limiter (r : Run) (rl : t) : Run :=
  {| limiter := rl; clock := clock r; retry_count := retry_count r;
     backoff := backoff r; last_exception := last_exception r;
     calls := calls r |}.

Definition set_clock (r : Run) (c : Clock) : Run :=
  {| limiter := limiter r; clock := c; retry_count := retry_count r;
     backoff := backoff r; last_exception := last_exception r;
     calls := calls r |}.

(** How [execute] ends: with a value, with an [Exception], or with an
    exception of the callable that passed the handler untouched;
    [OutOfFuel] stands for a loop still running when the iteration budget
    of the model is spent. *)
Inductive Result (T : Type) : Type :=
| Return (v : T)
| Raise (e : PyExc)
| Escaped (b : BaseExc)
| OutOfFuel.
Arguments Return {T} v.
Arguments Raise {T} e.
Arguments Escaped {T} b.
Arguments OutOfFuel {T}.

(** Lines 221-232: the admission part of an iteration. *)
Inductive Acquired : Type :=
| Granted
| StillLimited
| AcquireRaised (e : PyExc).

Definition acquire (r : Run) : Acquired * Run * list Event :=
  let rl := limiter r in
  match TokenBucket.consume (token_bucket rl) (monotonic (clock r)) 1 with
  | (b1, inl e) =>
      (AcquireRaised e, set_limiter r (with_bucket rl b1),
       [EvConsumeRaised])
  | (b1, inr (true, wait_time)) =>
      (Granted, set_limiter r (with_bucket rl b1),
       [EvConsume true wait_time])
  | (b1, inr (false, wait_time)) =>
      let rl1 := with_stats (with_bucket rl b1)
                   (RateLimitStats.rate_limited (stats rl)) in
      match sleep (clock r) wait_time with
      | inl e =>
          (AcquireRaised e, set_limiter r rl1, [EvConsume false wait_time])
      | inr clk1 =>
          let r1 := set_clock (set_limiter r rl1) clk1 in
          match TokenBucket.consume b1 (monotonic clk1) 1 with
          | (b2, inl e) =>
              (AcquireRaised e, set_limiter r1 (with_bucket rl1 b2),
               [EvConsume false wait_time; EvRateLimitSleep wait_time;
                EvConsumeRaised])
          | (b2, inr (allowed, w2)) =>
              (if allowed then Granted else StillLimited,
               set_limiter r1 (with_bucket rl1 b2),
               [EvConsume false wait_time; EvRateLimitSleep wait_time;
                EvConsume allowed w2])
          end
      end
  end.

(** Lines 235-265: the call of [func] and its bookkeeping. *)
Inductive Attempt (T : Type) : Type :=
| Done (v : T)
| Again
| AttemptRaised (e : PyExc)
| AttemptEscaped (b : BaseExc).
Arguments Done {T} v.
Arguments Again {T}.
Arguments AttemptRaised {T} e.
Arguments AttemptEscaped {T} b.

Definition attempt {T : Type} (func : Callable T) (r : Run)
  : Attempt T * Run * list Event :=
  let rl := limiter r in
  let cfg := config rl in
  let st1 := RateLimitStats.requested (stats rl) (wall (clock r)) in
  let c := func (calls r) in
  let clk1 := advance (clock r) (duration c) in
  match outcome c with
  | Returns result =>
      let st2 := RateLimitStats.succeeded st1 in
      let cb := CircuitBreaker.record_success (circuit_breaker rl) in
      (Done result,
       {| limiter := with_breaker (with_stats rl st2) cb; clock := clk1;
          retry_count := retry_count r; backoff := backoff r;
          last_exception := last_exception r; calls := S (calls r) |},
       [EvWork (calls r)])
  | Raises e =>
      let retry_count' := (retry_count r + 1)%Z in
      let st2 := RateLimitStats.failed st1 (wall clk1) in
      let cb := CircuitBreaker.record_failure (circuit_breaker rl)
                  (wall clk1) in
      let rl2 := with_breaker (with_stats rl st2) cb in
      if (retry_count' <=? max_retries cfg)%Z then
        let wait_time := Qmin (backoff r) (max_backoff cfg) in
        match sleep clk1 wait_time with
        | inl exc =>
            (AttemptRaised exc,
             {| limiter := rl2; clock := clk1;
                retry_count := retry_count'; backoff := backoff r;
                last_exception := Some e; calls := S (calls r) |},
             [EvWork (calls r)])
        | inr clk2 =>
            (Again,
             {| limiter := rl2; clock := clk2;
                retry_count := retry_count';
                backoff := backoff r * backoff_multiplier cfg;
                last_exception := Some e; calls := S (calls r) |},
             [EvWork (calls r);
            EvBackoffSleep wait_time (backoff r * backoff_multiplier cfg)])
        end
      else
        (Again,
         {| limiter := rl2; clock := clk1;
            retry_count := retry_count'; backoff := backoff r;
            last_exception := Some e; calls := S (calls r) |},
         [EvWork (calls r)])
  | Escapes b =>
      (AttemptEscaped b,
       {| limiter := with_stats rl st1; clock := clk1;
          retry_count := retry_count r; backoff := backoff r;
          last_exception := last_exception r; calls := S (calls r) |},
       [EvWork (calls r)])
  end.

(** One pass through the body of the [while] loop: [inl] leaves
    [execute] with a result, [inr] goes back to the loop condition. *)
Definition iteration {T : Type} (func : Callable T) (r : Run)
  : (Result T + unit) * Run * list Event :=
  match acquire r with
  | (AcquireRaised e, r1, ev) => (inl (Raise e), r1, ev)
  | (StillLimited, r1, ev) => (inr tt, r1, ev)
  | (Granted, r1, ev) =>
      match attempt func r1 with
      | (Done v, r2, ev2) => (inl (Return v), r2, ev ++ ev2)
      | (AttemptRaised e, r2, ev2) => (inl (Raise e), r2, ev ++ ev2)
      | (AttemptEscaped b, r2, ev2) => (inl (Escaped b), r2, ev ++ ev2)
      | (Again, r2, ev2) => (inr tt, r2, ev ++ ev2)
      end
  end.

(** Lines 219-268: the [while] loop and the final [raise], with at most
    [fuel] iterations. *)
Fixpoint retry_loop {T : Type} (fuel : nat) (func : Callable T) (r : Run)
  : Result T * Run * list Event :=
  if (retry_count r <=? max_retries (config (limiter r)))%Z then
    match fuel with
    | O => (OutOfFuel, r, [])
    | S fuel' =>
        match iteration func r with
        | (inl res, r1, ev) => (res, r1, ev)
        | (inr _, r1, ev) =>
            let '(res, r2, ev2) := retry_loop fuel' func r1 in
            (res, r2, ev ++ ev2)
        end
    end
  else
    (Raise (match last_exception r with
            | Some e => e
            | None => Exception "All retry attempts failed"
            end), r, []).

(** Lines 209-217: the locals of the loop at its entry. *)
Definition enter (rl : t) (clk : Clock) : Run :=
  {| limiter := rl; clock := clk; retry_count := 0%Z;
     backoff := initial_backoff (config rl);
     last_exception := None; calls := O |}.

(** [execute(func)] entered when the clocks read [clk]. *)
Definition execute {T : Type} (fuel : nat) (func : Callable T)
  (rl : t) (clk : Clock) : Result T * Run * list Event :=
  let (cb, ok) :=
    CircuitBreaker.call_allowed (circuit_breaker rl) (wall clk) in
  let rl1 := with_breaker rl cb in
  if ok then
    let '(res, r, ev) := retry_loop fuel func (enter rl1 clk) in
    (res, r, EvCallAllowed true :: ev)
  else
    (Raise (Exception "Circuit breaker is open - service unavailable"),
     enter (with_stats rl1 (RateLimitStats.rejected (stats rl1))) clk,
     [EvCallAllowed false]).

(** A run in working order: the bucket has a positive rate, room for one
    token and a stamp that is not ahead of the monotonic clock, and the
    backoff and its settings are not negative. *)
Definition healthy (r : Run) : Prop :=
  0 < TokenBucket.rate (token_bucket (limiter r))
  /\ (1 <= TokenBucket.capacity (token_bucket (limiter r)))%Z
  /\ TokenBucket.last_update (token_bucket (limiter r))
     <= monotonic (clock r)
  /\ 0 <= backoff r
  /\ 0 <= backoff_multiplier (config (limiter r))
  /\ 0 <= max_backoff (config (limiter r)).

(** A limiter in working order when the clocks read [clk]. *)
Definition ready (rl : t) (clk : Clock) : Prop :=
  0 < TokenBucket.rate (token_bucket rl)
  /\ (1 <= TokenBucket.capacity (token_bucket rl))%Z
  /\ TokenBucket.last_update (token_bucket rl) <= monotonic clk
  /\ 0 <= initial_backoff (config rl)
  /\ 0 <= backoff_multiplier (config rl)
  /\ 0 <= max_backoff (config rl).

(** One when [execute] returned a value, zero otherwise. *)
Definition returned {T : Type} (res : Result T) : Z :=
  match res with Return _ => 1%Z | _ => 0%Z end.

(** One when [execute] ended with an exception of the callable that the
    handler does not catch, zero otherwise. *)
Definition escaped {T : Type} (res : Result T) : Z :=
  match res with Escaped _ => 1%Z | _ => 0%Z end.

(** [reset_stats()]: a fresh statistics record; the bucket and the breaker
    stay. *)
Definition reset_stats (rl : t) : t := with_stats rl RateLimitStats.init.

(** The three parts of what [execute] yields. *)
Definition result_of {T : Type} (out : Result T * Run * list Event)
  : Result T := fst (fst out).

Definition final {T : Type} (out : Result T * Run * list Event) : Run :=
  snd (fst out).

Definition trace {T : Type} (out : Result T * Run * list Event)
  : list Event := snd out.

End RateLimiter.

(** ** Worked runs *)

(** A callable that raises [Exception("fail")] at once, every time. *)
Definition always_fails : Callable unit :=
  fun _ => mkCall (Raises (Exception "fail")) 0.

Definition clock0 : Clock := {| monotonic := 0; wall := 0 |}.

(** The defaults with the sleep capped at three seconds. *)
Definition capped_config : RateLimitConfig :=
  {| requests_per_second := 10; burst_size := 20;
     max_retries := 3; initial_backoff := 1; max_backoff := 3;
     backoff_multiplier := 2;
     failure_threshold := 5; recovery_timeout := 60; half_open_max_calls := 3;
     log_rate_limits := true; log_circuit_state := true |}.

(** [RateLimitConfig(burst_size=0)]: a bucket that never holds a token. *)
Definition starved_config : RateLimitConfig :=
  {| requests_per_second := 10; burst_size := 0;
     max_retries := 3; initial_backoff := 1; max_backoff := 60;
     backoff_multiplier := 2;
     failure_threshold := 5; recovery_timeout := 60; half_open_max_calls := 3;
     log_rate_limits := true; log_circuit_state := true |}.

(** A limiter whose breaker opened at wall-clock time zero. *)
Definition tripped_limiter : RateLimiter.t :=
  RateLimiter.with_breaker (RateLimiter.init default_config 0)
    (CircuitBreaker.mk default_config OPEN 5 (Some 0) 0).

(** The retry bound with the retry counter growing by [max_retries], for
    well-formed configurations ([max_retries >= 0], backoff lengths and
    multiplier not negative), an admitting breaker, a callable that always
    raises, enough iterations and a run in which every [consume] admits. *)
Definition retry_bound_as_stated : Prop :=
  forall (T : Type) (fuel : nat) (func : Callable T)
         (rl : RateLimiter.t) (clk : Clock),
    (forall i : nat, exists e : PyExc, outcome (func i) = Raises e) ->
    (0 <= max_retries (RateLimiter.config rl))%Z ->
    0 <= initial_backoff (RateLimiter.config rl) ->
    0 <= backoff_multiplier (RateLimiter.config rl) ->
    0 <= max_backoff (RateLimiter.config rl) ->
    (Z.to_nat (max_retries (RateLimiter.config rl)) + 1 <= fuel)%nat ->
    snd (CircuitBreaker.call_allowed (RateLimiter.circuit_breaker rl)
           (wall clk)) = true ->
    every_consume_admits
      (RateLimiter.trace (RateLimiter.execute fuel func rl clk)) = true ->
    Z.of_nat (work_invocations
                (RateLimiter.trace (RateLimiter.execute fuel func rl clk)))
    = (max_retries (RateLimiter.config rl) + 1)%Z
    /\ (exists e : PyExc,
          RateLimiter.result_of (RateLimiter.execute fuel func rl clk)
          = RateLimiter.Raise e)
    /\ RateLimitStats.total_retry_attempts
         (RateLimiter.stats
            (RateLimiter.limiter
               (RateLimiter.final (RateLimiter.execute fuel func rl clk))))
       = (RateLimitStats.total_retry_attempts (RateLimiter.stats rl)
          + max_retries (RateLimiter.config rl))%Z.

(** * Properties *)

(** ** Token bucket *)

Section TokenBucketFacts.

Import TokenBucket.

Lemma Qle_bool_false (x y : Q) : Qle_bool x y = false <-> y < x.
Proof.
  split; intro H.
  - apply Qnot_le_lt. intro Hle. apply Qle_bool_iff in Hle. congruence.
  - destruct (Qle_bool x y) eqn:E; [|reflexivity].
    apply Qle_bool_iff in E. exfalso. apply (Qlt_not_le _ _ H E).
Qed.

Lemma Qeq_bool_false_pos (x : Q) : 0 < x -> Qeq_bool x 0 = false.
Proof.
  intro H. destruct (Qeq_bool x 0) eqn:E; [|reflexivity].
  apply Qeq_bool_iff in E. rewrite E in H. exfalso. apply (Qlt_irrefl 0 H).
Qed.

Lemma consume_rate (b : t) (now : Q) (n : Z) :
  rate (fst (consume b now n)) = rate b.
Proof.
  unfold consume.
  destruct (Qle_bool _ _); [reflexivity|].
  destruct (Qeq_bool _ _); reflexivity.
Qed.

Lemma consume_capacity (b : t) (now : Q) (n : Z) :
  capacity (fst (consume b now n)) = capacity b.
Proof.
  unfold consume.
  destruct (Qle_bool _ _); [reflexivity|].
  destruct (Qeq_bool _ _); reflexivity.
Qed.

Lemma consume_last_update (b : t) (now : Q) (n : Z) :
  last_update (fst (consume b now n)) = now.
Proof.
  unfold consume.
  destruct (Qle_bool _ _); [reflexivity|].
  destruct (Qeq_bool _ _); reflexivity.
Qed.

(** The refilled balance stays within the bounds when the clock has not
    gone back. *)
Lemma refilled_bounds (b : t) (now : Q) :
  0 <= rate b -> (0 <= capacity b)%Z ->
  0 <= tokens b -> last_update b <= now ->
  0 <= refilled b now <= inject_Z (capacity b).
Proof.
  intros Hr Hc Ht Hn. unfold refilled.
  assert (Hcq : 0 <= inject_Z (capacity b)).
  { change 0 with (inject_Z 0). rewrite <- Zle_Qle. exact Hc. }
  assert (He : 0 <= (now - last_update b) * rate b).
  { apply Qmult_le_0_compat; [lra | exact Hr]. }
  split.
  - apply Q.min_glb; lra.
  - apply Q.le_min_l.
Qed.

Lemma consume_bounds (b : t) (now : Q) (n : Z) :
  0 <= rate b -> (0 <= capacity b)%Z ->
  0 <= tokens b -> last_update b <= now -> (0 <= n)%Z ->
  0 <= tokens (fst (consume b now n)) <= inject_Z (capacity b).
Proof.
  intros Hr Hc Ht Hn Hn0.
  pose proof (refilled_bounds b now Hr Hc Ht Hn) as [Hlo Hhi].
  assert (Hnq : 0 <= inject_Z n).
  { change 0 with (inject_Z 0). rewrite <- Zle_Qle. exact Hn0. }
  unfold consume.
  destruct (Qle_bool (inject_Z n) (refilled b now)) eqn:E.
  - apply Qle_bool_iff in E. cbn [fst tokens]. split; lra.
  - destruct (Qeq_bool (rate b) 0); cbn [fst tokens]; split; assumption.
Qed.

End TokenBucketFacts.

(** C7.  On a bucket with a positive rate, [consume(n)] refills to
    [min(capacity, tokens + elapsed * rate)] with
    [elapsed = now - last_update] and stamps [last_update = now]; when the
    refilled balance covers [n] it takes exactly [n] and answers
    [(True, 0)]; otherwise it answers [(False, (n - tokens) / rate)], a wait
    that is not negative, and keeps the refilled balance.  It holds for every
    [n], so for every [n >= 0]. *)
Theorem consume_contract :
  forall (b : TokenBucket.t) (now : Q) (n : Z),
    0 < TokenBucket.rate b ->
    let elapsed := now - TokenBucket.last_update b in
    let refill :=
      Qmin (inject_Z (TokenBucket.capacity b))
           (TokenBucket.tokens b + elapsed * TokenBucket.rate b) in
    (inject_Z n <= refill ->
       TokenBucket.consume b now n =
       (TokenBucket.mk (TokenBucket.rate b) (TokenBucket.capacity b)
                       (refill - inject_Z n) now,
        inr (true, 0)))
    /\ (refill < inject_Z n ->
       TokenBucket.consume b now n =
       (TokenBucket.mk (TokenBucket.rate b) (TokenBucket.capacity b)
                       refill now,
        inr (false, (inject_Z n - refill) / TokenBucket.rate b))
       /\ 0 <= (inject_Z n - refill) / TokenBucket.rate b).
Proof.
  intros b now n Hrate elapsed refill.
  assert (Hdef : TokenBucket.refilled b now = refill) by reflexivity.
  split; intro H.
  - unfold TokenBucket.consume. rewrite Hdef.
    apply Qle_bool_iff in H. rewrite H. reflexivity.
  - unfold TokenBucket.consume. rewrite Hdef.
    apply Qle_bool_false in H. rewrite H.
    rewrite (Qeq_bool_false_pos _ Hrate).
    split; [reflexivity|].
    apply Qle_bool_false in H.
    apply Qle_shift_div_l; [exact Hrate | lra].
Qed.

Lemma consume_contract_witness :
  TokenBucket.consume (TokenBucket.mk 10 20 (1 # 2) 0) 0 1 =
  (TokenBucket.mk 10 20 (Qmin 20 ((1 # 2) + (0 - 0) * 10)) 0,
   inr (false, (1 - Qmin 20 ((1 # 2) + (0 - 0) * 10)) / 10))
  /\ 0 <= (1 - Qmin 20 ((1 # 2) + (0 - 0) * 10)) / 10.
Proof.
  apply (consume_contract (TokenBucket.mk 10 20 (1 # 2) 0) 0 1).
  - reflexivity.
  - reflexivity.
Defined.

(** Outside the data model: with a zero rate the refused branch divides by
    zero, and the refilled bucket is what the raise leaves behind. *)
Remark consume_zero_rate_raises :
  forall (b : TokenBucket.t) (now : Q) (n : Z),
    TokenBucket.rate b == 0 ->
    TokenBucket.refilled b now < inject_Z n ->
    snd (TokenBucket.consume b now n) = inl ZeroDivisionError.
Proof.
  intros b now n Hr Hlt. unfold TokenBucket.consume.
  apply Qle_bool_false in Hlt. rewrite Hlt.
  apply Qeq_bool_iff in Hr. rewrite Hr. reflexivity.
Qed.

(** C8.  A bucket created with [rate > 0] and [capacity >= 1] and driven by
    [consume(n)] calls with [n >= 0] on a clock that never goes back has
    [0 <= tokens <= capacity] when created and after every call. *)
Theorem tokens_within_capacity :
  forall (rate : Q) (capacity : Z) (t0 : Q) (calls : list (Q * Z)),
    0 < rate -> (1 <= capacity)%Z ->
    TokenBucket.clock_nondecreasing t0 calls ->
    Forall (fun c => (0 <= snd c)%Z) calls ->
    Forall (fun b => 0 <= TokenBucket.tokens b <= inject_Z capacity)
           (TokenBucket.init rate capacity t0
            :: TokenBucket.observe (TokenBucket.init rate capacity t0) calls).
Proof.
  intros rate capacity t0 calls Hrate Hcap Hclock Hn.
  assert (Hcq : 0 <= inject_Z capacity).
  { change 0 with (inject_Z 0). rewrite <- Zle_Qle. lia. }
  assert (Hgen : forall cs b,
             TokenBucket.rate b = rate -> TokenBucket.capacity b = capacity ->
             0 <= TokenBucket.tokens b ->
             TokenBucket.clock_nondecreasing (TokenBucket.last_update b) cs ->
             Forall (fun c => (0 <= snd c)%Z) cs ->
             Forall (fun b => 0 <= TokenBucket.tokens b <= inject_Z capacity)
                    (TokenBucket.observe b cs)).
  { induction cs as [|[now n] cs IH]; intros b Hr Hc Ht Hck Hns.
    - constructor.
    - cbn [TokenBucket.observe]. destruct Hck as [Hle Hck].
      pose proof (Forall_inv Hns) as Hn0. cbn [snd] in Hn0.
      pose proof (Forall_inv_tail Hns) as Hns'.
      assert (Hb : 0 <= TokenBucket.tokens (fst (TokenBucket.consume b now n))
                   <= inject_Z (TokenBucket.capacity b)).
      { apply consume_bounds; try assumption.
        - rewrite Hr. lra.
        - rewrite Hc. lia. }
      constructor.
      + rewrite <- Hc. exact Hb.
      + apply IH.
        * rewrite consume_rate. exact Hr.
        * rewrite consume_capacity. exact Hc.
        * apply Hb.
        * rewrite consume_last_update. exact Hck.
        * exact Hns'. }
  constructor.
  - cbn. split; lra.
  - apply Hgen; try assumption; try reflexivity.
Qed.

Lemma tokens_within_capacity_witness :
  Forall (fun b => 0 <= TokenBucket.tokens b <= inject_Z 2)
         (TokenBucket.init 2 2 0
          :: TokenBucket.observe (TokenBucket.init 2 2 0)
               [(0, 1%Z); (0, 1%Z); (0, 1%Z); (1 # 2, 1%Z)]).
Proof.
  apply (tokens_within_capacity 2 2 0
           [(0, 1%Z); (0, 1%Z); (0, 1%Z); (1 # 2, 1%Z)]).
  - reflexivity.
  - lia.
  - cbn. repeat split; discriminate.
  - repeat constructor; cbn; lia.
Defined.

(** ** Circuit breaker *)

Section CircuitBreakerFacts.

Import CircuitBreaker.

Lemma run_app (cb : t) (ops1 ops2 : list Op) :
  run cb (ops1 ++ ops2) = run (run cb ops1) ops2.
Proof.
  revert cb. induction ops1 as [|op ops1 IH]; intro cb; cbn; [reflexivity|].
  apply IH.
Qed.

Lemma step_config (cb : t) (op : Op) : config (fst (step cb op)) = config cb.
Proof.
  destruct op as [now| |now]; cbn.
  - unfold call_allowed. destruct (state cb); cbn; try reflexivity.
    + destruct (last_failure_time cb); [|reflexivity].
      destruct (Qle_bool _ _); reflexivity.
    + destruct (_ <? _)%Z; reflexivity.
  - unfold record_success. destruct (state cb); reflexivity.
  - unfold record_failure. cbn. destruct (state cb); cbn; try reflexivity;
      destruct (_ <=? _)%Z; reflexivity.
Qed.

Lemma run_config (cb : t) (ops : list Op) : config (run cb ops) = config cb.
Proof.
  revert cb. induction ops as [|op ops IH]; intro cb; cbn; [reflexivity|].
  rewrite IH. apply step_config.
Qed.

(** Below the threshold a closed breaker only counts. *)
Lemma record_failure_below (cb : t) (now : Q) :
  state cb = CLOSED ->
  (failure_count cb + 1 < failure_threshold (config cb))%Z ->
  record_failure cb now =
  {| config := config cb; state := CLOSED;
     failure_count := (failure_count cb + 1)%Z;
     last_failure_time := Some now;
     half_open_calls := half_open_calls cb |}.
Proof.
  intros Hs Hlt. unfold record_failure. cbn. rewrite Hs.
  destruct (Z.leb_spec (failure_threshold (config cb)) (failure_count cb + 1));
    [lia | reflexivity].
Qed.

(** The failure that reaches the threshold opens a closed breaker. *)
Lemma record_failure_reaches (cb : t) (now : Q) :
  state cb = CLOSED ->
  (failure_threshold (config cb) <= failure_count cb + 1)%Z ->
  state (record_failure cb now) = OPEN.
Proof.
  intros Hs Hle. unfold record_failure. cbn. rewrite Hs.
  destruct (Z.leb_spec (failure_threshold (config cb)) (failure_count cb + 1));
    [reflexivity | lia].
Qed.

Lemma failures_below (ts : list Q) :
  forall cb : t,
    state cb = CLOSED ->
    (failure_count cb + Z.of_nat (List.length ts)
     < failure_threshold (config cb))%Z ->
    let cb' := run cb (map RecordFailure ts) in
    state cb' = CLOSED
    /\ failure_count cb' = (failure_count cb + Z.of_nat (List.length ts))%Z
    /\ config cb' = config cb.
Proof.
  induction ts as [|now ts IH]; intros cb Hs Hlt.
  - cbn. repeat split; [exact Hs | lia].
  - cbn [map run step fst]. cbn [List.length] in Hlt.
    rewrite Nat2Z.inj_succ in Hlt.
    rewrite (record_failure_below cb now Hs) by lia.
    match goal with |- context [run ?c _] => specialize (IH c) end.
    cbn [state failure_count config] in IH.
    destruct IH as (H1 & H2 & H3); [reflexivity | lia |].
    cbv zeta. cbn [List.length]. rewrite Nat2Z.inj_succ.
    repeat split; [exact H1 | rewrite H2; lia | exact H3].
Qed.

(** An admission check of an open breaker before the recovery time changes
    nothing and refuses. *)
Lemma call_allowed_open_early (cb : t) (T now : Q) :
  state cb = OPEN -> last_failure_time cb = Some T ->
  now < T + recovery_timeout (config cb) ->
  call_allowed cb now = (cb, false).
Proof.
  intros Hs Ht Hlt. unfold call_allowed. rewrite Hs, Ht.
  assert (E : Qle_bool (recovery_timeout (config cb)) (now - T) = false).
  { apply Qle_bool_false. lra. }
  cbv zeta. rewrite E. reflexivity.
Qed.

Lemma call_allowed_open_due (cb : t) (T now : Q) :
  state cb = OPEN -> last_failure_time cb = Some T ->
  T + recovery_timeout (config cb) <= now ->
  call_allowed cb now = (_transition_to cb HALF_OPEN, true).
Proof.
  intros Hs Ht Hle. unfold call_allowed. rewrite Hs, Ht.
  assert (E : Qle_bool (recovery_timeout (config cb)) (now - T) = true).
  { apply Qle_bool_iff. lra. }
  cbv zeta. rewrite E. reflexivity.
Qed.

Lemma checks_open_early (cb : t) (T : Q) (ts : list Q) :
  state cb = OPEN -> last_failure_time cb = Some T ->
  Forall (fun x => x < T + recovery_timeout (config cb)) ts ->
  forall more : list Q,
    checks cb (ts ++ more) =
    (fst (checks cb more), repeat false (List.length ts) ++ snd (checks cb more)).
Proof.
  intros Hs Ht Hall more. induction Hall as [|now ts Hnow Hall IH]; cbn.
  - destruct (checks cb more); reflexivity.
  - rewrite (call_allowed_open_early cb T now Hs Ht Hnow).
    rewrite IH. reflexivity.
Qed.

(** The only way into [HALF_OPEN] is the transition of an admission check,
    which zeroes the probe counter. *)
Lemma step_enters_half_open (cb : t) (op : Op) :
  state cb <> HALF_OPEN ->
  state (fst (step cb op)) = HALF_OPEN ->
  half_open_calls (fst (step cb op)) = 0%Z.
Proof.
  intros Hne Hs. destruct op as [now| |now]; cbn in *.
  - unfold call_allowed in *. destruct (state cb) eqn:E; cbn in *;
      try congruence.
    destruct (last_failure_time cb); cbn in *; [|congruence].
    destruct (Qle_bool _ _); cbn in *; [reflexivity | congruence].
  - unfold record_success in *. destruct (state cb) eqn:E; cbn in *;
      congruence.
  - unfold record_failure in *. cbn in *.
    destruct (state cb) eqn:E; cbn in *; try congruence;
      destruct (_ <=? _)%Z; cbn in *; congruence.
Qed.

Lemma half_open_admissions_elsewhere (cb : t) (ops : list Op) :
  state cb <> HALF_OPEN -> half_open_admissions cb ops = 0%Z.
Proof.
  intro Hne. destruct ops as [|op ops]; [reflexivity|]. cbn.
  destruct (state cb); congruence.
Qed.

Lemma half_open_admissions_bound (ops : list Op) :
  forall cb : t,
    state cb = HALF_OPEN ->
    (half_open_calls cb <= half_open_max_calls (config cb))%Z ->
    (half_open_admissions cb ops
     <= half_open_max_calls (config cb) - half_open_calls cb)%Z.
Proof.
  induction ops as [|op ops IH]; intros cb Hs Hle; cbn; [lia|].
  rewrite Hs. destruct op as [now| |now]; cbn.
  - unfold call_allowed. rewrite Hs.
    destruct (Z.ltb_spec (half_open_calls cb)
                         (half_open_max_calls (config cb))) as [Hlt|Hge].
    + match goal with |- context [half_open_admissions ?c _] =>
        specialize (IH c) end.
      cbn [state config half_open_calls] in IH.
      specialize (IH eq_refl). lia.
    + specialize (IH cb Hs Hle). lia.
  - rewrite half_open_admissions_elsewhere; [lia|].
    unfold record_success. rewrite Hs. cbn. discriminate.
  - rewrite half_open_admissions_elsewhere; [lia|].
    unfold record_failure. cbn. rewrite Hs. cbn. discriminate.
Qed.

Lemma step_probes_bounded (cb : t) (op : Op) :
  (0 <= half_open_max_calls (config cb))%Z ->
  probes_bounded cb -> probes_bounded (fst (step cb op)).
Proof.
  intros Hmax Hinv. unfold probes_bounded in *.
  destruct op as [now| |now]; cbn.
  - unfold call_allowed. destruct (state cb) eqn:E.
    + cbn. rewrite E. discriminate.
    + destruct (last_failure_time cb); cbn; [|rewrite E; discriminate].
      destruct (Qle_bool _ _); cbn; [intros _; lia | rewrite E; discriminate].
    + destruct (Z.ltb_spec (half_open_calls cb)
                           (half_open_max_calls (config cb))); cbn.
      * intros _. lia.
      * intros _. apply Hinv. reflexivity.
  - unfold record_success. destruct (state cb) eqn:E; cbn;
      try rewrite E; discriminate.
  - unfold record_failure. cbn. destruct (state cb) eqn:E; cbn;
      try discriminate; destruct (_ <=? _)%Z; cbn; try rewrite E; discriminate.
Qed.

Lemma states_probes_bounded (ops : list Op) :
  forall cb : t,
    (0 <= half_open_max_calls (config cb))%Z ->
    probes_bounded cb -> Forall probes_bounded (states cb ops).
Proof.
  induction ops as [|op ops IH]; intros cb Hmax Hinv; cbn.
  - constructor; [exact Hinv | constructor].
  - constructor; [exact Hinv|].
    apply IH.
    + rewrite step_config. exact Hmax.
    + apply step_probes_bounded; assumption.
Qed.

End CircuitBreakerFacts.

(** C5.  From [CLOSED] with [failure_count = 0] and a threshold of at least
    one, [failure_threshold] consecutive [record_failure()] calls end in
    [OPEN] and every shorter run of them is still [CLOSED]; and
    [failure_threshold - 1] of them followed by one [record_success()] end
    in [CLOSED] with [failure_count = 0]. *)
Theorem breaker_threshold :
  forall (cb : CircuitBreaker.t) (ts ts' : list Q),
    CircuitBreaker.state cb = CLOSED ->
    CircuitBreaker.failure_count cb = 0%Z ->
    (1 <= failure_threshold (CircuitBreaker.config cb))%Z ->
    Z.of_nat (List.length ts) = failure_threshold (CircuitBreaker.config cb) ->
    Z.of_nat (List.length ts')
    = (failure_threshold (CircuitBreaker.config cb) - 1)%Z ->
    CircuitBreaker.state
      (CircuitBreaker.run cb (map CircuitBreaker.RecordFailure ts)) = OPEN
    /\ (forall k : nat,
          (k < List.length ts)%nat ->
          CircuitBreaker.state
            (CircuitBreaker.run cb
               (map CircuitBreaker.RecordFailure (firstn k ts))) = CLOSED)
    /\ CircuitBreaker.state
         (CircuitBreaker.run cb
            (map CircuitBreaker.RecordFailure ts'
             ++ [CircuitBreaker.RecordSuccess])) = CLOSED
    /\ CircuitBreaker.failure_count
         (CircuitBreaker.run cb
            (map CircuitBreaker.RecordFailure ts'
             ++ [CircuitBreaker.RecordSuccess])) = 0%Z.
Proof.
  intros cb ts ts' Hs Hc Hth Hlen Hlen'.
  assert (Hearly : forall k : nat,
             (k < List.length ts)%nat ->
             let cbk := CircuitBreaker.run cb
                          (map CircuitBreaker.RecordFailure (firstn k ts)) in
             CircuitBreaker.state cbk = CLOSED
             /\ CircuitBreaker.failure_count cbk = Z.of_nat k
             /\ CircuitBreaker.config cbk = CircuitBreaker.config cb).
  { intros k Hk.
    assert (Hlk : List.length (firstn k ts) = k)
      by (rewrite length_firstn; lia).
    pose proof (failures_below (firstn k ts) cb Hs) as H.
    rewrite Hlk, Hc in H. cbv zeta in *.
    destruct H as (H1 & H2 & H3); [lia|].
    repeat split; [exact H1 | rewrite H2; lia | exact H3]. }
  split; [|split].
  - destruct (exists_last (l := ts)) as (front & now & Hts).
    { intro E. rewrite E in Hlen. cbn in Hlen. lia. }
    assert (Hfront : (List.length front < List.length ts)%nat).
    { rewrite Hts, length_app. cbn. lia. }
    destruct (Hearly (List.length front) Hfront) as (H1 & H2 & H3).
    assert (Hfn : firstn (List.length front) ts = front).
    { rewrite Hts. rewrite firstn_app, firstn_all, Nat.sub_diag. cbn.
      apply app_nil_r. }
    rewrite Hfn in H1, H2, H3.
    rewrite Hts, map_app, run_app. cbn [map CircuitBreaker.run
                                          CircuitBreaker.step fst].
    apply record_failure_reaches; [exact H1|].
    rewrite H3, H2. rewrite Hts, length_app in Hlen. cbn in Hlen. lia.
  - intros k Hk. apply (Hearly k Hk).
  - pose proof (failures_below ts' cb Hs) as H. rewrite Hc in H.
    cbv zeta in H. destruct H as (H1 & H2 & H3); [lia|].
    rewrite !run_app. cbn [CircuitBreaker.run CircuitBreaker.step fst].
    unfold CircuitBreaker.record_success. rewrite H1.
    split; cbn; [exact H1 | reflexivity].
Qed.

Lemma breaker_threshold_witness :
  CircuitBreaker.state
    (CircuitBreaker.run (CircuitBreaker.init default_config)
       (map CircuitBreaker.RecordFailure [1; 2; 3; 4; 5])) = OPEN
  /\ (forall k : nat,
        (k < List.length [1; 2; 3; 4; 5])%nat ->
        CircuitBreaker.state
          (CircuitBreaker.run (CircuitBreaker.init default_config)
             (map CircuitBreaker.RecordFailure
                (firstn k [1; 2; 3; 4; 5]))) = CLOSED)
  /\ CircuitBreaker.state
       (CircuitBreaker.run (CircuitBreaker.init default_config)
          (map CircuitBreaker.RecordFailure [1; 2; 3; 4]
           ++ [CircuitBreaker.RecordSuccess])) = CLOSED
  /\ CircuitBreaker.failure_count
       (CircuitBreaker.run (CircuitBreaker.init default_config)
          (map CircuitBreaker.RecordFailure [1; 2; 3; 4]
           ++ [CircuitBreaker.RecordSuccess])) = 0%Z.
Proof.
  apply (breaker_threshold (CircuitBreaker.init default_config)
           [1; 2; 3; 4; 5] [1; 2; 3; 4]).
  - reflexivity.
  - reflexivity.
  - cbn. lia.
  - reflexivity.
  - reflexivity.
Defined.

(** C6.  An [OPEN] breaker whose last failure was recorded at [T] refuses
    every admission check made before [T + recovery_timeout] and stays as it
    is; the first check at or after that time is granted and the same check
    moves the breaker to [HALF_OPEN]. *)
Theorem recovery_timing :
  forall (cb : CircuitBreaker.t) (T : Q) (early : list Q) (due : Q),
    CircuitBreaker.state cb = OPEN ->
    CircuitBreaker.last_failure_time cb = Some T ->
    Forall (fun now => now < T + recovery_timeout (CircuitBreaker.config cb))
           early ->
    T + recovery_timeout (CircuitBreaker.config cb) <= due ->
    CircuitBreaker.checks cb early = (cb, repeat false (List.length early))
    /\ CircuitBreaker.checks cb (early ++ [due])
       = (CircuitBreaker._transition_to cb HALF_OPEN,
          repeat false (List.length early) ++ [true])
    /\ CircuitBreaker.state (CircuitBreaker._transition_to cb HALF_OPEN)
       = HALF_OPEN.
Proof.
  intros cb T early due Hs Ht Hearly Hdue.
  split; [|split].
  - pose proof (checks_open_early cb T early Hs Ht Hearly []) as H.
    rewrite !app_nil_r in H. exact H.
  - rewrite (checks_open_early cb T early Hs Ht Hearly [due]).
    cbn [CircuitBreaker.checks].
    rewrite (call_allowed_open_due cb T due Hs Ht Hdue). reflexivity.
  - reflexivity.
Qed.

Lemma recovery_timing_witness :
  CircuitBreaker.checks
    (CircuitBreaker.mk default_config OPEN 5 (Some 100) 0) [100; 130; 159]
  = (CircuitBreaker.mk default_config OPEN 5 (Some 100) 0,
     repeat false (List.length [100; 130; 159]))
  /\ CircuitBreaker.checks
       (CircuitBreaker.mk default_config OPEN 5 (Some 100) 0)
       ([100; 130; 159] ++ [160])
     = (CircuitBreaker._transition_to
          (CircuitBreaker.mk default_config OPEN 5 (Some 100) 0) HALF_OPEN,
        repeat false (List.length [100; 130; 159]) ++ [true])
  /\ CircuitBreaker.state
       (CircuitBreaker._transition_to
          (CircuitBreaker.mk default_config OPEN 5 (Some 100) 0) HALF_OPEN)
     = HALF_OPEN.
Proof.
  apply (recovery_timing
           (CircuitBreaker.mk default_config OPEN 5 (Some 100) 0)
           100 [100; 130; 159] 160).
  - reflexivity.
  - reflexivity.
  - repeat constructor.
  - cbn. discriminate.
Defined.

(** C10.  [record_success()] in [CLOSED] or [OPEN] zeroes [failure_count]
    and keeps the state, [last_failure_time] and [half_open_calls]; in
    [HALF_OPEN] it closes the breaker; and it changes the state in no other
    case. *)
Theorem record_success_frame :
  forall cb : CircuitBreaker.t,
    (CircuitBreaker.state cb <> HALF_OPEN ->
     CircuitBreaker.record_success cb
     = CircuitBreaker.mk (CircuitBreaker.config cb) (CircuitBreaker.state cb)
         0 (CircuitBreaker.last_failure_time cb)
         (CircuitBreaker.half_open_calls cb))
    /\ (CircuitBreaker.state cb = HALF_OPEN ->
        CircuitBreaker.state (CircuitBreaker.record_success cb) = CLOSED)
    /\ (CircuitBreaker.state (CircuitBreaker.record_success cb)
        <> CircuitBreaker.state cb ->
        CircuitBreaker.state cb = HALF_OPEN).
Proof.
  intro cb. unfold CircuitBreaker.record_success.
  destruct (CircuitBreaker.state cb) eqn:E; cbn; repeat split;
    try reflexivity; try congruence; intros; try rewrite E; congruence.
Qed.

(** C3, as the code has it.  Along every run of a breaker built by
    [__init__] with [half_open_max_calls >= 0]: whenever an operation takes
    the breaker into [HALF_OPEN], the admission checks answered [True] from
    that moment until the breaker leaves the state are at most
    [half_open_max_calls + 1]: the check that makes the transition, which
    is not counted in [half_open_calls], and at most [half_open_max_calls]
    checks made while the state is [HALF_OPEN]; and every breaker seen in
    [HALF_OPEN] has [half_open_calls <= half_open_max_calls]. *)
Theorem half_open_episode_bound :
  forall (cfg : RateLimitConfig) (before : list CircuitBreaker.Op)
         (op : CircuitBreaker.Op) (after : list CircuitBreaker.Op),
    (0 <= half_open_max_calls cfg)%Z ->
    (CircuitBreaker.state
       (CircuitBreaker.run (CircuitBreaker.init cfg) before) <> HALF_OPEN ->
     CircuitBreaker.state
       (fst (CircuitBreaker.step
               (CircuitBreaker.run (CircuitBreaker.init cfg) before) op))
     = HALF_OPEN ->
     (CircuitBreaker.episode_grants
        (CircuitBreaker.run (CircuitBreaker.init cfg) before) op after
      <= half_open_max_calls cfg + 1)%Z
     /\ (CircuitBreaker.half_open_admissions
           (fst (CircuitBreaker.step
                   (CircuitBreaker.run (CircuitBreaker.init cfg) before) op))
           after
         <= half_open_max_calls cfg)%Z)
    /\ Forall (fun cb =>
                 CircuitBreaker.state cb = HALF_OPEN ->
                 (CircuitBreaker.half_open_calls cb
                  <= half_open_max_calls cfg)%Z)
              (CircuitBreaker.states (CircuitBreaker.init cfg)
                 (before ++ op :: after)).
Proof.
  intros cfg before op after Hmax. split.
  - intros Hne Hin.
    pose proof (step_enters_half_open _ op Hne Hin) as Hzero.
    pose proof (half_open_admissions_bound after _ Hin) as Hb.
    rewrite Hzero in Hb. rewrite step_config, run_config in Hb. cbn in Hb.
    assert (Hadm : (CircuitBreaker.half_open_admissions
                      (fst (CircuitBreaker.step
                              (CircuitBreaker.run (CircuitBreaker.init cfg)
                                 before) op)) after
                    <= half_open_max_calls cfg)%Z) by lia.
    split; [|exact Hadm].
    unfold CircuitBreaker.episode_grants.
    assert (Hg : (CircuitBreaker.granted
                    (snd (CircuitBreaker.step
                            (CircuitBreaker.run (CircuitBreaker.init cfg)
                               before) op)) <= 1)%Z).
    { destruct (snd (CircuitBreaker.step _ op)) as [[|]|]; cbn; lia. }
    lia.
  - pose proof (states_probes_bounded (before ++ op :: after)
                  (CircuitBreaker.init cfg) Hmax) as H.
    assert (H0 : CircuitBreaker.probes_bounded (CircuitBreaker.init cfg))
      by (intro E; cbn in E; discriminate).
    specialize (H H0).
    assert (Hcfg : Forall (fun cb => CircuitBreaker.config cb = cfg)
                          (CircuitBreaker.states (CircuitBreaker.init cfg)
                             (before ++ op :: after))).
    { generalize (before ++ op :: after). intro ops.
      assert (G : forall cb, CircuitBreaker.config cb = cfg ->
                   Forall (fun cb => CircuitBreaker.config cb = cfg)
                          (CircuitBreaker.states cb ops)).
      { induction ops as [|o ops IH]; intros cb Hc; cbn.
        - constructor; [exact Hc | constructor].
        - constructor; [exact Hc|]. apply IH. rewrite step_config. exact Hc. }
      apply G. reflexivity. }
    rewrite Forall_forall in *. intros cb Hcb Hs.
    specialize (H cb Hcb Hs). rewrite (Hcfg cb Hcb) in H. exact H.
Qed.

Lemma half_open_episode_bound_witness :
  (CircuitBreaker.state
     (CircuitBreaker.run (CircuitBreaker.init default_config)
        (map CircuitBreaker.RecordFailure [1; 2; 3; 4; 5])) <> HALF_OPEN ->
   CircuitBreaker.state
     (fst (CircuitBreaker.step
             (CircuitBreaker.run (CircuitBreaker.init default_config)
                (map CircuitBreaker.RecordFailure [1; 2; 3; 4; 5]))
             (CircuitBreaker.CallAllowed 70)))
   = HALF_OPEN ->
   (CircuitBreaker.episode_grants
      (CircuitBreaker.run (CircuitBreaker.init default_config)
         (map CircuitBreaker.RecordFailure [1; 2; 3; 4; 5]%Q))
      (CircuitBreaker.CallAllowed 70%Q)
      (map CircuitBreaker.CallAllowed [71; 72; 73; 74; 75]%Q)
    <= half_open_max_calls default_config + 1)%Z
   /\ (CircuitBreaker.half_open_admissions
         (fst (CircuitBreaker.step
                 (CircuitBreaker.run (CircuitBreaker.init default_config)
                    (map CircuitBreaker.RecordFailure [1; 2; 3; 4; 5]%Q))
                 (CircuitBreaker.CallAllowed 70%Q)))
         (map CircuitBreaker.CallAllowed [71; 72; 73; 74; 75]%Q)
       <= half_open_max_calls default_config)%Z)
  /\ Forall (fun cb =>
               CircuitBreaker.state cb = HALF_OPEN ->
               (CircuitBreaker.half_open_calls cb
                <= half_open_max_calls default_config)%Z)
            (CircuitBreaker.states (CircuitBreaker.init default_config)
               (map CircuitBreaker.RecordFailure [1; 2; 3; 4; 5]
                ++ CircuitBreaker.CallAllowed 70
                   :: map CircuitBreaker.CallAllowed [71; 72; 73; 74; 75])).
Proof.
  apply (half_open_episode_bound default_config
           (map CircuitBreaker.RecordFailure [1; 2; 3; 4; 5])
           (CircuitBreaker.CallAllowed 70)
           (map CircuitBreaker.CallAllowed [71; 72; 73; 74; 75])).
  cbn. lia.
Defined.

(** C3, against the claim as worded.  With the default
    [half_open_max_calls = 3], a breaker opened by five failures and checked
    at 70 (past the recovery time) and then at 71, 72, 73 and 74 answers
    [True] four times between entering [HALF_OPEN] and leaving it: the
    transition check and three probes.  So the bound of
    [half_open_max_calls] on these answers does not hold. *)
Lemma half_open_grants_counterexample :
  CircuitBreaker.state
    (CircuitBreaker.run (CircuitBreaker.init default_config)
       (map CircuitBreaker.RecordFailure [1; 2; 3; 4; 5])) = OPEN
  /\ CircuitBreaker.state
       (fst (CircuitBreaker.step
               (CircuitBreaker.run (CircuitBreaker.init default_config)
                  (map CircuitBreaker.RecordFailure [1; 2; 3; 4; 5]))
               (CircuitBreaker.CallAllowed 70))) = HALF_OPEN
  /\ CircuitBreaker.episode_grants
       (CircuitBreaker.run (CircuitBreaker.init default_config)
          (map CircuitBreaker.RecordFailure [1; 2; 3; 4; 5]))
       (CircuitBreaker.CallAllowed 70)
       (map CircuitBreaker.CallAllowed [71; 72; 73; 74]) = 4%Z
  /\ half_open_max_calls default_config = 3%Z
  /\ ~ CircuitBreaker.half_open_grants_as_stated.
Proof.
  split; [reflexivity|]. split; [reflexivity|]. split; [reflexivity|].
  split; [reflexivity|].
  intro H.
  specialize (H default_config
                (map CircuitBreaker.RecordFailure [1; 2; 3; 4; 5])
                (CircuitBreaker.CallAllowed 70)
                (map CircuitBreaker.CallAllowed [71; 72; 73; 74])).
  assert (Habs : (CircuitBreaker.episode_grants
                    (CircuitBreaker.run (CircuitBreaker.init default_config)
                       (map CircuitBreaker.RecordFailure [1; 2; 3; 4; 5]%Q))
                    (CircuitBreaker.CallAllowed 70%Q)
                    (map CircuitBreaker.CallAllowed [71; 72; 73; 74]%Q)
                  <= half_open_max_calls default_config)%Z).
  { apply H.
    - cbn. lia.
    - cbn. discriminate.
    - reflexivity. }
  vm_compute in Habs. apply Habs. reflexivity.
Qed.

(** ** Rate limiter *)

Section RateLimiterFacts.

Import RateLimiter.

(** A refused admission check leaves the breaker as it was. *)
Lemma call_allowed_refused (cb : CircuitBreaker.t) (now : Q) :
  snd (CircuitBreaker.call_allowed cb now) = false ->
  fst (CircuitBreaker.call_allowed cb now) = cb.
Proof.
  unfold CircuitBreaker.call_allowed.
  destruct (CircuitBreaker.state cb); cbn; try discriminate.
  - destruct (CircuitBreaker.last_failure_time cb); [|reflexivity].
    cbv zeta. destruct (Qle_bool _ _); cbn; [discriminate | reflexivity].
  - destruct (_ <? _)%Z; cbn; [discriminate | reflexivity].
Qed.

Lemma with_breaker_same (rl : t) : with_breaker rl (circuit_breaker rl) = rl.
Proof. destruct rl; reflexivity. Qed.

Lemma work_invocations_app (a b : list Event) :
  work_invocations (a ++ b) = (work_invocations a + work_invocations b)%nat.
Proof.
  unfold work_invocations. rewrite filter_app, length_app. reflexivity.
Qed.

Lemma backoff_sleeps_app (a b : list Event) :
  backoff_sleeps (a ++ b) = backoff_sleeps a ++ backoff_sleeps b.
Proof.
  induction a as [|e a IH]; [reflexivity|].
  destruct e; cbn; rewrite ?IH; reflexivity.
Qed.

Lemma every_consume_admits_app (a b : list Event) :
  every_consume_admits (a ++ b) = true ->
  every_consume_admits a = true /\ every_consume_admits b = true.
Proof.
  unfold every_consume_admits. rewrite forallb_app.
  apply andb_true_iff.
Qed.

(** What the admission part never touches, and what it never logs. *)
Lemma acquire_frame (r r1 : Run) (a : Acquired) (ev : list Event) :
  acquire r = (a, r1, ev) ->
  retry_count r1 = retry_count r /\ backoff r1 = backoff r
  /\ last_exception r1 = last_exception r /\ calls r1 = calls r
  /\ config (limiter r1) = config (limiter r)
  /\ circuit_breaker (limiter r1) = circuit_breaker (limiter r)
  /\ RateLimitStats.total_retry_attempts (stats (limiter r1))
     = RateLimitStats.total_retry_attempts (stats (limiter r))
  /\ work_invocations ev = O /\ backoff_sleeps ev = [].
Proof.
  unfold acquire.
  destruct (TokenBucket.consume _ _ _) as [b1 [e|[[|] w]]].
  - intro H; inversion H; subst; cbn; repeat split; reflexivity.
  - intro H; inversion H; subst; cbn; repeat split; reflexivity.
  - destruct (sleep (clock r) w) as [e|clk1].
    + intro H; inversion H; subst; cbn; repeat split; reflexivity.
    + destruct (TokenBucket.consume b1 _ _) as [b2 [e|[ok w2]]].
      * intro H; inversion H; subst; cbn; repeat split; reflexivity.
      * intro H; inversion H; subst; cbn; repeat split; reflexivity.
Qed.

(** When no [consume] is refused the first one admits and nothing else
    happens in the admission part. *)
Lemma acquire_admitted (r r1 : Run) (a : Acquired) (ev : list Event) :
  acquire r = (a, r1, ev) ->
  every_consume_admits ev = true ->
  a = Granted /\ clock r1 = clock r.
Proof.
  unfold acquire.
  destruct (TokenBucket.consume _ _ _) as [b1 [e|[[|] w]]].
  - intro H; inversion H; subst; cbn; discriminate.
  - intro H; inversion H; subst; cbn; split; reflexivity.
  - destruct (sleep (clock r) w) as [e|clk1].
    + intro H; inversion H; subst; cbn; discriminate.
    + destruct (TokenBucket.consume b1 _ _) as [b2 [e|[ok w2]]];
        intro H; inversion H; subst; cbn; discriminate.
Qed.

(** Two refused [consume]s in a row: the iteration goes back to the loop
    condition with the loop locals and the retry statistics as they were,
    having counted one rate-limited request and invoked nothing. *)
Lemma acquire_still_limited (r r1 : Run) (ev : list Event) :
  acquire r = (StillLimited, r1, ev) ->
  exists w w2 : Q,
    ev = [EvConsume false w; EvRateLimitSleep w; EvConsume false w2]
    /\ RateLimitStats.rate_limited_requests (stats (limiter r1))
       = (RateLimitStats.rate_limited_requests (stats (limiter r)) + 1)%Z.
Proof.
  unfold acquire.
  destruct (TokenBucket.consume _ _ _) as [b1 [e|[[|] w]]];
    try (intro H; inversion H; fail).
  destruct (sleep (clock r) w) as [e|clk1]; [intro H; inversion H|].
  destruct (TokenBucket.consume b1 _ _) as [b2 [e|[[|] w2]]];
    intro H; inversion H; subst.
  exists w, w2. split; reflexivity.
Qed.

(** The call of the callable and its bookkeeping: the configuration stays,
    and the attempt either sleeps once, for [min(backoff, max_backoff)],
    and multiplies [backoff], or does not sleep and keeps [backoff]. *)
Lemma attempt_backoff {T : Type} (func : Callable T) (r r2 : Run)
      (x : Attempt T) (ev : list Event) :
  attempt func r = (x, r2, ev) ->
  config (limiter r2) = config (limiter r)
  /\ ((backoff_sleeps ev = [] /\ backoff r2 = backoff r)
      \/ (backoff_sleeps ev
          = [(Qmin (backoff r) (max_backoff (config (limiter r))),
              backoff r * backoff_multiplier (config (limiter r)))]
          /\ backoff r2
             = backoff r * backoff_multiplier (config (limiter r)))).
Proof.
  unfold attempt.
  destruct (outcome (func (calls r))) as [v|e|b].
  - intro H; inversion H; subst; cbn.
    split; [reflexivity | left; split; reflexivity].
  - cbv zeta. destruct (_ <=? _)%Z.
    + destruct (sleep _ _) as [exc|clk2]; intro H; inversion H; subst; cbn.
      * split; [reflexivity | left; split; reflexivity].
      * split; [reflexivity | right; split; reflexivity].
    + intro H; inversion H; subst; cbn.
      split; [reflexivity | left; split; reflexivity].
  - intro H; inversion H; subst; cbn.
    split; [reflexivity | left; split; reflexivity].
Qed.

Lemma iteration_backoff {T : Type} (func : Callable T) (r r1 : Run)
      (x : Result T + unit) (ev : list Event) :
  iteration func r = (x, r1, ev) ->
  config (limiter r1) = config (limiter r)
  /\ ((backoff_sleeps ev = [] /\ backoff r1 = backoff r)
      \/ (backoff_sleeps ev
          = [(Qmin (backoff r) (max_backoff (config (limiter r))),
              backoff r * backoff_multiplier (config (limiter r)))]
          /\ backoff r1
             = backoff r * backoff_multiplier (config (limiter r)))).
Proof.
  unfold iteration.
  destruct (acquire r) as [[a ra] eva] eqn:Ea.
  destruct (acquire_frame _ _ _ _ Ea)
    as (_ & Hb & _ & _ & Hcfg & _ & _ & _ & Hsl).
  destruct a.
  - destruct (attempt func ra) as [[y r2] ev2] eqn:Eat.
    destruct (attempt_backoff _ _ _ _ _ Eat) as [Hcfg2 Hcases].
    rewrite Hcfg, Hb in *.
    assert (G : config (limiter r2) = config (limiter r)
                /\ ((backoff_sleeps (eva ++ ev2) = [] /\ backoff r2 = backoff r)
                    \/ (backoff_sleeps (eva ++ ev2)
                        = [(Qmin (backoff r) (max_backoff (config (limiter r))),
                            backoff r * backoff_multiplier (config (limiter r)))]
                        /\ backoff r2
                           = backoff r
                             * backoff_multiplier (config (limiter r))))).
    { rewrite backoff_sleeps_app, Hsl. cbn [app]. split; assumption. }
    destruct y; intro H; inversion H; subst; exact G.
  - intro H; inversion H; subst.
    split; [exact Hcfg | left; split; assumption].
  - intro H; inversion H; subst.
    split; [exact Hcfg | left; split; assumption].
Qed.

(** An attempt whose callable raises, with a backoff the sleep accepts. *)
Lemma attempt_failing {T : Type} (func : Callable T) (r : Run) (e : PyExc) :
  outcome (func (calls r)) = Raises e ->
  0 <= backoff r -> 0 <= max_backoff (config (limiter r)) ->
  exists (r2 : Run) (ev : list Event),
    attempt func r = (Again, r2, ev)
    /\ retry_count r2 = (retry_count r + 1)%Z
    /\ calls r2 = S (calls r)
    /\ last_exception r2 = Some e
    /\ RateLimitStats.total_retry_attempts (stats (limiter r2))
       = (RateLimitStats.total_retry_attempts (stats (limiter r)) + 1)%Z
    /\ work_invocations ev = 1%nat.
Proof.
  intros Hout Hb Hmax. unfold attempt. rewrite Hout. cbv zeta.
  destruct (_ <=? _)%Z.
  - unfold sleep.
    assert (E : Qle_bool 0 (Qmin (backoff r) (max_backoff (config (limiter r))))
                = true).
    { apply Qle_bool_iff. apply Q.min_glb; assumption. }
    rewrite E. eexists _, _. split; [reflexivity|].
    cbn. repeat split; reflexivity.
  - eexists _, _. split; [reflexivity|].
    cbn. repeat split; reflexivity.
Qed.

Lemma iteration_failing {T : Type} (func : Callable T) (r r1 : Run)
      (e : PyExc) (x : Result T + unit) (ev : list Event) :
  outcome (func (calls r)) = Raises e ->
  0 <= backoff r -> 0 <= max_backoff (config (limiter r)) ->
  iteration func r = (x, r1, ev) ->
  every_consume_admits ev = true ->
  x = inr tt
  /\ retry_count r1 = (retry_count r + 1)%Z
  /\ calls r1 = S (calls r)
  /\ last_exception r1 = Some e
  /\ RateLimitStats.total_retry_attempts (stats (limiter r1))
     = (RateLimitStats.total_retry_attempts (stats (limiter r)) + 1)%Z
  /\ work_invocations ev = 1%nat.
Proof.
  intros Hout Hb Hmax. unfold iteration.
  destruct (acquire r) as [[a ra] eva] eqn:Ea.
  destruct (acquire_frame _ _ _ _ Ea)
    as (Hrc & Hbk & _ & Hcalls & Hcfg & _ & Hst & Hw & _).
  destruct a.
  - destruct (attempt_failing func ra e) as (r2 & ev2 & Eat & A1 & A2 & A3 & A4 & A5).
    + rewrite Hcalls. exact Hout.
    + rewrite Hbk. exact Hb.
    + rewrite Hcfg. exact Hmax.
    + rewrite Eat. intros H _. inversion H; subst.
      rewrite work_invocations_app, Hw, A5, A1, A2, A4, Hrc, Hcalls, Hst.
      repeat split; try reflexivity. exact A3.
  - intros H Hadm. inversion H; subst.
    destruct (acquire_admitted _ _ _ _ Ea Hadm) as [Habs _]. discriminate.
  - intros H Hadm. inversion H; subst.
    destruct (acquire_admitted _ _ _ _ Ea Hadm) as [Habs _]. discriminate.
Qed.

(** The retry loop on a callable that always raises, when no [consume] is
    refused and every backoff is a length [time.sleep] accepts: the loop
    runs exactly the iterations its counter leaves, each invoking the
    callable once and counting one retry attempt, and raises the last
    exception. *)
Lemma retry_loop_all_fail {T : Type} (func : Callable T) :
  (forall i : nat, exists e : PyExc, outcome (func i) = Raises e) ->
  forall (fuel : nat) (r r' : Run) (res : Result T) (evs : list Event),
    0 <= backoff r ->
    0 <= backoff_multiplier (config (limiter r)) ->
    0 <= max_backoff (config (limiter r)) ->
    (Z.to_nat (max_retries (config (limiter r)) + 1 - retry_count r)
     <= fuel)%nat ->
    retry_loop fuel func r = (res, r', evs) ->
    every_consume_admits evs = true ->
    let n := Z.to_nat (max_retries (config (limiter r)) + 1 - retry_count r) in
    work_invocations evs = n
    /\ calls r' = (calls r + n)%nat
    /\ RateLimitStats.total_retry_attempts (stats (limiter r'))
       = (RateLimitStats.total_retry_attempts (stats (limiter r))
          + Z.of_nat n)%Z
    /\ res = Raise (match last_exception r' with
                    | Some e => e
                    | None => Exception "All retry attempts failed"
                    end)
    /\ (n = O -> last_exception r' = last_exception r)
    /\ (n <> O ->
        exists e : PyExc,
          last_exception r' = Some e
          /\ outcome (func (calls r' - 1)%nat) = Raises e).
Proof.
  intro Hfail. induction fuel as [|fuel IH];
    intros r r' res evs Hb Hm Hmax Hfuel Hloop Hadm n; subst n.
  - assert (Hn : Z.to_nat (max_retries (config (limiter r)) + 1
                           - retry_count r) = O) by lia.
    rewrite Hn. cbn [retry_loop] in Hloop.
    destruct (Z.leb_spec (retry_count r) (max_retries (config (limiter r))))
      as [Hle|Hgt]; [lia|].
    inversion Hloop; subst. cbn. rewrite Nat.add_0_r, Z.add_0_r.
    repeat split; try reflexivity. intro Habs. exfalso. apply Habs; reflexivity.
  - cbn [retry_loop] in Hloop.
    destruct (Z.leb_spec (retry_count r) (max_retries (config (limiter r))))
      as [Hle|Hgt].
    + destruct (iteration func r) as [[x r1] ev] eqn:Eit.
      destruct (Hfail (calls r)) as [e He].
      destruct (iteration_backoff _ _ _ _ _ Eit) as [Hcfg Hbk].
      assert (Hadm1 : every_consume_admits ev = true
                      /\ (x = inr tt ->
                          exists res2 r2 ev2,
                            retry_loop fuel func r1 = (res2, r2, ev2)
                            /\ res = res2 /\ r' = r2 /\ evs = ev ++ ev2)).
      { destruct x as [resx|[]].
        - inversion Hloop; subst. split; [exact Hadm | discriminate].
        - destruct (retry_loop fuel func r1) as [[res2 r2] ev2] eqn:El.
          inversion Hloop; subst.
          destruct (every_consume_admits_app _ _ Hadm) as [Ha _].
          split; [exact Ha|]. intros _. exists res, r', ev2.
          repeat split; reflexivity. }
      destruct Hadm1 as [Hadm1 Hrest].
      destruct (iteration_failing func r r1 e x ev He Hb Hmax Eit Hadm1)
        as (Hx & Hrc & Hcalls & Hlast & Hst & Hw).
      destruct (Hrest Hx) as (res2 & r2 & ev2 & El & -> & -> & ->).
      destruct (every_consume_admits_app _ _ Hadm) as [_ Hadm2].
      assert (Hb1 : 0 <= backoff r1).
      { destruct Hbk as [[_ ->]|[_ ->]]; [exact Hb|].
        apply Qmult_le_0_compat; assumption. }
      assert (Hn : Z.to_nat (max_retries (config (limiter r)) + 1
                             - retry_count r)
                   = S (Z.to_nat (max_retries (config (limiter r1)) + 1
                                  - retry_count r1))).
      { rewrite Hcfg, Hrc. lia. }
      specialize (IH r1 r2 res2 ev2 Hb1).
      rewrite Hcfg in IH. specialize (IH Hm Hmax).
      rewrite Hcfg, Hrc in Hn. rewrite Hrc in IH.
      assert (Hfuel1 : (Z.to_nat (max_retries (config (limiter r)) + 1
                                  - (retry_count r + 1)) <= fuel)%nat) by lia.
      specialize (IH Hfuel1 El Hadm2). cbv zeta in IH.
      destruct IH as (I1 & I2 & I3 & I4 & I5 & I6).
      rewrite Hn. rewrite work_invocations_app, Hw, I1, I2, I3, Hcalls, Hst.
      repeat split.
      * lia.
      * rewrite Nat2Z.inj_succ. lia.
      * exact I4.
      * discriminate.
      * intros _.
        destruct (Nat.eq_dec
                    (Z.to_nat (max_retries (config (limiter r)) + 1
                               - (retry_count r + 1))) O) as [E0|E0].
        -- exists e. rewrite (I5 E0), Hlast. split; [reflexivity|].
           rewrite E0. replace (S (calls r) + 0 - 1)%nat with (calls r) by lia.
           exact He.
        -- destruct (I6 E0) as (e' & Hl' & Ho').
           exists e'. split; [exact Hl'|].
           rewrite I2, Hcalls in Ho'. exact Ho'.
    + assert (Hn : Z.to_nat (max_retries (config (limiter r)) + 1
                             - retry_count r) = O) by lia.
      rewrite Hn. inversion Hloop; subst. cbn.
      rewrite Nat.add_0_r, Z.add_0_r.
      repeat split; try reflexivity.
      intro Habs. exfalso. apply Habs; reflexivity.
Qed.

Lemma Qpower_nat_succ (q : Q) (k : nat) :
  q ^ Z.of_nat (S k) == q ^ Z.of_nat k * q.
Proof.
  rewrite Nat2Z.inj_succ. unfold Z.succ.
  rewrite Qpower_plus' by lia. rewrite Qpower_1_r. reflexivity.
Qed.

Lemma schedule_app (a b : list Event) :
  schedule (a ++ b) = schedule a ++ schedule b.
Proof.
  induction a as [|e a IH]; [reflexivity|].
  destruct e; cbn; rewrite ?IH; reflexivity.
Qed.

Lemma sleeps_of_schedule (evs : list Event) :
  sleeps_of (schedule evs) = backoff_sleeps evs.
Proof.
  induction evs as [|e evs IH]; [reflexivity|].
  destruct e; cbn; rewrite ?IH; reflexivity.
Qed.

Lemma in_schedule (evs : list Event) (i : nat) :
  In (EvWork i) evs -> In (inl i) (schedule evs).
Proof.
  induction evs as [|e evs IH]; [intros []|].
  intros [He|Hin].
  - subst e. left. reflexivity.
  - destruct e; cbn; try (right; apply IH; exact Hin); apply IH; exact Hin.
Qed.

(** The admission part neither invokes nor sleeps for backoff. *)
Lemma acquire_schedule (r r1 : Run) (a : Acquired) (ev : list Event) :
  acquire r = (a, r1, ev) -> schedule ev = [].
Proof.
  unfold acquire.
  destruct (TokenBucket.consume _ _ _) as [b1 [e|[[|] w]]].
  - intro H; inversion H; reflexivity.
  - intro H; inversion H; reflexivity.
  - destruct (sleep (clock r) w) as [e|clk1].
    + intro H; inversion H; reflexivity.
    + destruct (TokenBucket.consume b1 _ _) as [b2 [e|[ok w2]]];
        intro H; inversion H; reflexivity.
Qed.

(** The schedule of an attempt: the invocation alone, when the attempt ends
    [execute] or has used up the retries; or the invocation and then the
    backoff sleep, before going back to the loop. *)
Lemma attempt_schedule {T : Type} (func : Callable T) (r r2 : Run)
      (x : Attempt T) (ev : list Event) :
  attempt func r = (x, r2, ev) ->
  calls r2 = S (calls r)
  /\ ((schedule ev = [inl (calls r)]
       /\ (x <> Again
           \/ (max_retries (config (limiter r)) < retry_count r2)%Z))
      \/ (schedule ev
          = [inl (calls r);
             inr (Qmin (backoff r) (max_backoff (config (limiter r))),
                  backoff r * backoff_multiplier (config (limiter r)))]
          /\ x = Again
          /\ backoff r2
             = backoff r * backoff_multiplier (config (limiter r)))).
Proof.
  unfold attempt.
  destruct (outcome (func (calls r))) as [v|e|b].
  - intro H; inversion H; subst; cbn.
    split; [reflexivity|]. left. split; [reflexivity | left; discriminate].
  - cbv zeta.
    destruct (Z.leb_spec (retry_count r + 1)
                         (max_retries (config (limiter r)))) as [Hle|Hgt].
    + destruct (sleep _ _) as [exc|clk2]; intro H; inversion H; subst; cbn.
      * split; [reflexivity|]. left.
        split; [reflexivity | left; discriminate].
      * split; [reflexivity|]. right. repeat split.
    + intro H; inversion H; subst; cbn.
      split; [reflexivity|]. left. split; [reflexivity | right; lia].
  - intro H; inversion H; subst; cbn.
    split; [reflexivity|]. left. split; [reflexivity | left; discriminate].
Qed.

Lemma iteration_schedule {T : Type} (func : Callable T) (r r1 : Run)
      (x : Result T + unit) (ev : list Event) :
  iteration func r = (x, r1, ev) ->
  (schedule ev = [] /\ calls r1 = calls r /\ backoff r1 = backoff r)
  \/ (schedule ev = [inl (calls r)]
      /\ ((exists res : Result T, x = inl res)
          \/ (max_retries (config (limiter r)) < retry_count r1)%Z))
  \/ (schedule ev
      = [inl (calls r);
         inr (Qmin (backoff r) (max_backoff (config (limiter r))),
              backoff r * backoff_multiplier (config (limiter r)))]
      /\ calls r1 = S (calls r)
      /\ backoff r1 = backoff r * backoff_multiplier (config (limiter r))).
Proof.
  unfold iteration.
  destruct (acquire r) as [[a ra] eva] eqn:Ea.
  pose proof (acquire_schedule _ _ _ _ Ea) as Hsch.
  destruct (acquire_frame _ _ _ _ Ea)
    as (_ & Hbk & _ & Hcalls & Hcfg & _).
  destruct a.
  - destruct (attempt func ra) as [[y r2] ev2] eqn:Eat.
    destruct (attempt_schedule _ _ _ _ _ Eat) as [Hc2 Hcase].
    rewrite Hcalls, Hcfg, Hbk in *.
    assert (Happ : schedule (eva ++ ev2) = schedule ev2).
    { rewrite schedule_app, Hsch. reflexivity. }
    destruct Hcase as [[Hs Hx]|(Hs & Hx & Hb)].
    + destruct y; intro H; inversion H; subst; right; left;
        (split; [rewrite Happ; exact Hs|]);
        try (left; eexists; reflexivity).
      destruct Hx as [Hx|Hx]; [exfalso; apply Hx; reflexivity|].
      right. exact Hx.
    + subst y. intro H; inversion H; subst. right. right.
      split; [rewrite Happ; exact Hs|]. split; assumption.
  - intro H; inversion H; subst. left. repeat split; assumption.
  - intro H; inversion H; subst. left. repeat split; assumption.
Qed.

(** The retry loop entered before invocation number [calls r] with
    [backoff == initial_backoff * backoff_multiplier ^ calls r] keeps the
    pace. *)
Lemma retry_loop_paced {T : Type} (func : Callable T) :
  forall (fuel : nat) (r r' : Run) (res : Result T) (evs : list Event),
    retry_loop fuel func r = (res, r', evs) ->
    backoff r == initial_backoff (config (limiter r))
                 * backoff_multiplier (config (limiter r))
                   ^ Z.of_nat (calls r) ->
    paced (config (limiter r)) (calls r) (schedule evs).
Proof.
  induction fuel as [|fuel IH]; intros r r' res evs Hloop Hb;
    cbn [retry_loop] in Hloop.
  - destruct (_ <=? _)%Z; inversion Hloop; subst; exact I.
  - destruct (_ <=? _)%Z; [|inversion Hloop; subst; exact I].
    destruct (iteration func r) as [[x r1] ev] eqn:Eit.
    destruct (iteration_backoff _ _ _ _ _ Eit) as [Hcfg _].
    pose proof (iteration_schedule _ _ _ _ _ Eit)
      as [(Hs & Hc & Hbk)|[(Hs & Hx)|(Hs & Hc & Hbk)]].
    + destruct x as [resx|[]].
      * inversion Hloop; subst. rewrite Hs. exact I.
      * destruct (retry_loop fuel func r1) as [[res2 r2] ev2] eqn:El.
        inversion Hloop; subst. rewrite schedule_app, Hs. cbn [app].
        specialize (IH _ _ _ _ El). rewrite Hcfg, Hc, Hbk in IH.
        apply IH. exact Hb.
    + destruct x as [resx|[]].
      * inversion Hloop; subst. rewrite Hs. cbn. split; [reflexivity|exact I].
      * destruct Hx as [[res0 Hx]|Hgt]; [discriminate|].
        assert (Hexit : retry_loop fuel func r1
                        = (Raise (match last_exception r1 with
                                  | Some e => e
                                  | None =>
                                      Exception "All retry attempts failed"
                                  end), r1, [])).
        { rewrite <- Hcfg in Hgt.
          destruct fuel; cbn [retry_loop];
            destruct (Z.leb_spec (retry_count r1)
                                 (max_retries (config (limiter r1))));
            try lia; reflexivity. }
        rewrite Hexit in Hloop. inversion Hloop; subst.
        rewrite schedule_app, Hs. cbn. split; [reflexivity|exact I].
    + destruct x as [resx|[]].
      * inversion Hloop; subst. rewrite Hs. cbn.
        split; [reflexivity|]. split; [|split; [|exact I]].
        -- apply Q.min_compat; [exact Hb | reflexivity].
        -- rewrite Nat.add_1_r, Qpower_nat_succ, Hb. ring.
      * destruct (retry_loop fuel func r1) as [[res2 r2] ev2] eqn:El.
        inversion Hloop; subst. rewrite schedule_app, Hs.
        cbn [app paced]. split; [reflexivity|].
        split; [apply Q.min_compat; [exact Hb | reflexivity]|].
        split; [rewrite Nat.add_1_r, Qpower_nat_succ, Hb; ring|].
        specialize (IH _ _ _ _ El). rewrite Hcfg, Hc, Hbk in IH.
        apply IH. rewrite Qpower_nat_succ, Hb. ring.
Qed.

(** What the pace says of the sleeps: each has its length, and every
    invocation after the first has its sleep. *)
Lemma paced_sleeps (cfg : RateLimitConfig) (n : nat) :
  forall (s : list (nat + Q * Q)) (j : nat),
    (List.length s <= n)%nat ->
    paced cfg j s ->
    (forall (k : nat) (d stored : Q),
        nth_error (sleeps_of s) k = Some (d, stored) ->
        d == Qmin (initial_backoff cfg
                   * backoff_multiplier cfg ^ Z.of_nat (j + k))
                  (max_backoff cfg)
        /\ stored == initial_backoff cfg
                     * backoff_multiplier cfg ^ Z.of_nat (j + k + 1))
    /\ (forall k : nat,
           In (inl (j + S k)%nat) s ->
           exists d stored : Q,
             nth_error (sleeps_of s) k = Some (d, stored)).
Proof.
  induction n as [|n IH]; intros s j Hlen Hp.
  - destruct s; [|cbn in Hlen; lia].
    split; [intros [|k] d st H; discriminate | intros k []].
  - destruct s as [|[i|p] rest]; [| |destruct Hp].
    + split; [intros [|k] d st H; discriminate | intros k []].
    + cbn [paced] in Hp. destruct Hp as [-> Hrest].
      destruct rest as [|[i'|[d0 s0]] rest'].
      * split; [intros [|k] d st H; discriminate|].
        intros k [H|[]]. inversion H. lia.
      * destruct Hrest.
      * destruct Hrest as (Hd & Hs & Hp').
        destruct (IH rest' (S j)) as [I1 I2]; [cbn in Hlen; lia | exact Hp'|].
        cbn [sleeps_of]. split.
        -- intros [|k] d st H; cbn in H.
           ++ inversion H; subst. rewrite !Nat.add_0_r. split; assumption.
           ++ replace (j + S k)%nat with (S j + k)%nat by lia.
              apply I1. exact H.
        -- intros k [H|[H|H]]; [inversion H; lia | discriminate |].
           destruct k as [|k].
           ++ exists d0, s0. reflexivity.
           ++ cbn [nth_error]. apply I2.
              replace (S j + S k)%nat with (j + S (S k))%nat by lia. exact H.
Qed.

End RateLimiterFacts.

(** C4.  When the admission check of the breaker refuses, [execute] raises
    the "service unavailable" exception at once: the trace holds that one
    check and nothing else (no invocation of the callable, no second check),
    [circuit_breaker_rejections] grows by one, and every other statistic,
    the token bucket and the breaker are as before. *)
Theorem open_circuit_fails_fast :
  forall (T : Type) (fuel : nat) (func : Callable T)
         (rl : RateLimiter.t) (clk : Clock),
    snd (CircuitBreaker.call_allowed (RateLimiter.circuit_breaker rl)
           (wall clk)) = false ->
    RateLimiter.result_of (RateLimiter.execute fuel func rl clk)
    = RateLimiter.Raise
        (Exception "Circuit breaker is open - service unavailable")
    /\ RateLimiter.trace (RateLimiter.execute fuel func rl clk)
       = [EvCallAllowed false]
    /\ work_invocations
         (RateLimiter.trace (RateLimiter.execute fuel func rl clk)) = O
    /\ RateLimiter.token_bucket
         (RateLimiter.limiter
            (RateLimiter.final (RateLimiter.execute fuel func rl clk)))
       = RateLimiter.token_bucket rl
    /\ RateLimiter.circuit_breaker
         (RateLimiter.limiter
            (RateLimiter.final (RateLimiter.execute fuel func rl clk)))
       = RateLimiter.circuit_breaker rl
    /\ RateLimiter.stats
         (RateLimiter.limiter
            (RateLimiter.final (RateLimiter.execute fuel func rl clk)))
       = RateLimitStats.mk
           (RateLimitStats.total_requests (RateLimiter.stats rl))
           (RateLimitStats.successful_requests (RateLimiter.stats rl))
           (RateLimitStats.failed_requests (RateLimiter.stats rl))
           (RateLimitStats.rate_limited_requests (RateLimiter.stats rl))
           (RateLimitStats.circuit_breaker_rejections (RateLimiter.stats rl)
            + 1)
           (RateLimitStats.total_retry_attempts (RateLimiter.stats rl))
           (RateLimitStats.last_request_time (RateLimiter.stats rl))
           (RateLimitStats.last_failure_time (RateLimiter.stats rl)).
Proof.
  intros T fuel func rl clk Hno.
  pose proof (call_allowed_refused _ _ Hno) as Hsame.
  unfold RateLimiter.execute.
  destruct (CircuitBreaker.call_allowed (RateLimiter.circuit_breaker rl)
              (wall clk)) as [cb ok].
  cbn [fst snd] in Hno, Hsame. subst ok cb.
  rewrite with_breaker_same. cbn. repeat split; reflexivity.
Qed.

Lemma open_circuit_fails_fast_witness :
  RateLimiter.result_of
    (RateLimiter.execute 10 always_fails tripped_limiter (mkClock 10 10))
  = RateLimiter.Raise
      (Exception "Circuit breaker is open - service unavailable")
  /\ RateLimiter.trace
       (RateLimiter.execute 10 always_fails tripped_limiter (mkClock 10 10))
     = [EvCallAllowed false]
  /\ work_invocations
       (RateLimiter.trace
          (RateLimiter.execute 10 always_fails tripped_limiter
             (mkClock 10 10))) = O
  /\ RateLimiter.token_bucket
       (RateLimiter.limiter
          (RateLimiter.final
             (RateLimiter.execute 10 always_fails tripped_limiter
                (mkClock 10 10))))
     = RateLimiter.token_bucket tripped_limiter
  /\ RateLimiter.circuit_breaker
       (RateLimiter.limiter
          (RateLimiter.final
             (RateLimiter.execute 10 always_fails tripped_limiter
                (mkClock 10 10))))
     = RateLimiter.circuit_breaker tripped_limiter
  /\ RateLimiter.stats
       (RateLimiter.limiter
          (RateLimiter.final
             (RateLimiter.execute 10 always_fails tripped_limiter
                (mkClock 10 10))))
     = RateLimitStats.mk 0 0 0 0 (0 + 1) 0 None None.
Proof.
  apply (open_circuit_fails_fast unit 10 always_fails tripped_limiter
           (mkClock 10 10)).
  reflexivity.
Defined.

(** C1, as the code has it.  With [max_retries = m >= 0], backoff lengths
    and multiplier that are not negative, an admitting breaker and a
    callable that raises on every invocation, an [execute] call in which
    every [consume] admits invokes the callable exactly [m + 1] times and
    then raises the exception of the last invocation; [total_retry_attempts]
    grows by [m + 1], once per failed invocation. *)
Theorem execute_retry_bound :
  forall (T : Type) (fuel : nat) (func : Callable T)
         (rl : RateLimiter.t) (clk : Clock),
    (forall i : nat, exists e : PyExc, outcome (func i) = Raises e) ->
    (0 <= max_retries (RateLimiter.config rl))%Z ->
    0 <= initial_backoff (RateLimiter.config rl) ->
    0 <= backoff_multiplier (RateLimiter.config rl) ->
    0 <= max_backoff (RateLimiter.config rl) ->
    (Z.to_nat (max_retries (RateLimiter.config rl)) + 1 <= fuel)%nat ->
    snd (CircuitBreaker.call_allowed (RateLimiter.circuit_breaker rl)
           (wall clk)) = true ->
    every_consume_admits
      (RateLimiter.trace (RateLimiter.execute fuel func rl clk)) = true ->
    Z.of_nat (work_invocations
                (RateLimiter.trace (RateLimiter.execute fuel func rl clk)))
    = (max_retries (RateLimiter.config rl) + 1)%Z
    /\ (exists e : PyExc,
          RateLimiter.result_of (RateLimiter.execute fuel func rl clk)
          = RateLimiter.Raise e
          /\ outcome (func (Z.to_nat (max_retries (RateLimiter.config rl))))
             = Raises e)
    /\ RateLimitStats.total_retry_attempts
         (RateLimiter.stats
            (RateLimiter.limiter
               (RateLimiter.final (RateLimiter.execute fuel func rl clk))))
       = (RateLimitStats.total_retry_attempts (RateLimiter.stats rl)
          + (max_retries (RateLimiter.config rl) + 1))%Z.
Proof.
  intros T fuel func rl clk Hfail Hm Hib Hmul Hmax Hfuel Hgate.
  unfold RateLimiter.execute.
  destruct (CircuitBreaker.call_allowed (RateLimiter.circuit_breaker rl)
              (wall clk)) as [cb ok].
  cbn [snd] in Hgate. subst ok.
  destruct (RateLimiter.retry_loop fuel func
              (RateLimiter.enter (RateLimiter.with_breaker rl cb) clk))
    as [[res r] ev] eqn:El.
  unfold RateLimiter.trace, RateLimiter.result_of, RateLimiter.final.
  cbn [fst snd]. intro Hadm.
  assert (Hadm' : every_consume_admits ev = true) by exact Hadm.
  pose proof (retry_loop_all_fail func Hfail fuel
                (RateLimiter.enter (RateLimiter.with_breaker rl cb) clk)
                r res ev) as H.
  cbn [RateLimiter.enter RateLimiter.backoff RateLimiter.limiter
       RateLimiter.with_breaker RateLimiter.config RateLimiter.retry_count
       RateLimiter.calls RateLimiter.stats RateLimiter.last_exception] in H.
  rewrite Z.sub_0_r in H.
  assert (Hn : Z.to_nat (max_retries (RateLimiter.config rl) + 1)
               = S (Z.to_nat (max_retries (RateLimiter.config rl)))) by lia.
  specialize (H Hib Hmul Hmax). rewrite Hn in H.
  assert (Hfuel' : (S (Z.to_nat (max_retries (RateLimiter.config rl)))
                    <= fuel)%nat) by lia.
  specialize (H Hfuel' El Hadm'). cbv zeta in H.
  destruct H as (H1 & H2 & H3 & H4 & _ & H6).
  destruct H6 as (e & Hlast & Hout); [discriminate|].
  split; [|split].
  - change (work_invocations (EvCallAllowed true :: ev))
      with (work_invocations ev).
    rewrite H1. lia.
  - exists e. split.
    + rewrite H4, Hlast. reflexivity.
    + rewrite H2 in Hout. cbn in Hout. rewrite Nat.sub_0_r in Hout.
      exact Hout.
  - rewrite H3. lia.
Qed.

Lemma execute_retry_bound_witness :
  Z.of_nat (work_invocations
              (RateLimiter.trace
                 (RateLimiter.execute 10 always_fails
                    (RateLimiter.init default_config 0) clock0)))
  = (max_retries default_config + 1)%Z
  /\ (exists e : PyExc,
        RateLimiter.result_of
          (RateLimiter.execute 10 always_fails
             (RateLimiter.init default_config 0) clock0)
        = RateLimiter.Raise e
        /\ outcome (always_fails (Z.to_nat (max_retries default_config)))
           = Raises e)
  /\ RateLimitStats.total_retry_attempts
       (RateLimiter.stats
          (RateLimiter.limiter
             (RateLimiter.final
                (RateLimiter.execute 10 always_fails
                   (RateLimiter.init default_config 0) clock0))))
     = (RateLimitStats.total_retry_attempts
          (RateLimiter.stats (RateLimiter.init default_config 0))
        + (max_retries default_config + 1))%Z.
Proof.
  apply (execute_retry_bound unit 10 always_fails
           (RateLimiter.init default_config 0) clock0).
  - intro i. exists (Exception "fail"). reflexivity.
  - cbn. lia.
  - cbn. discriminate.
  - cbn. discriminate.
  - cbn. discriminate.
  - cbn. lia.
  - reflexivity.
  - reflexivity.
Defined.

(** C1, against the claim as worded.  On the default configuration
    ([max_retries = 3]) a callable that always raises is invoked four times
    and [total_retry_attempts] goes from 0 to 4, not to 3; so the retry
    bound with an increase of [max_retries] does not hold. *)
Lemma retry_attempts_counterexample :
  every_consume_admits
    (RateLimiter.trace
       (RateLimiter.execute 10 always_fails
          (RateLimiter.init default_config 0) clock0)) = true
  /\ work_invocations
       (RateLimiter.trace
          (RateLimiter.execute 10 always_fails
             (RateLimiter.init default_config 0) clock0)) = 4%nat
  /\ RateLimitStats.total_retry_attempts
       (RateLimiter.stats
          (RateLimiter.limiter
             (RateLimiter.final
                (RateLimiter.execute 10 always_fails
                   (RateLimiter.init default_config 0) clock0)))) = 4%Z
  /\ ~ retry_bound_as_stated.
Proof.
  split; [reflexivity|]. split; [reflexivity|]. split; [reflexivity|].
  intro H.
  specialize (H unit 10%nat always_fails
                (RateLimiter.init default_config 0) clock0).
  destruct H as (_ & _ & Habs).
  - intro i. exists (Exception "fail"). reflexivity.
  - cbn. lia.
  - cbn. discriminate.
  - cbn. discriminate.
  - cbn. discriminate.
  - cbn. lia.
  - reflexivity.
  - reflexivity.
  - vm_compute in Habs. discriminate.
Qed.

(** C9.  In every [execute] call the invocations of the callable and the
    backoff sleeps alternate, starting with an invocation: the retry number
    [k + 1] (invocation [k + 1], with [k] counted from zero) comes right
    after backoff sleep number [k], which lasts
    [min(initial_backoff * backoff_multiplier ^ k, max_backoff)], and the
    [backoff] variable holds [initial_backoff * backoff_multiplier ^ (k + 1)]
    after that sleep, with no cap.  So every backoff sleep has this length,
    and every retry that happens had its sleep. *)
Theorem backoff_before_each_retry :
  forall (T : Type) (fuel : nat) (func : Callable T)
         (rl : RateLimiter.t) (clk : Clock),
    paced (RateLimiter.config rl) O
          (schedule (RateLimiter.trace (RateLimiter.execute fuel func rl clk)))
    /\ (forall (k : nat) (d stored : Q),
           nth_error
             (backoff_sleeps
                (RateLimiter.trace (RateLimiter.execute fuel func rl clk))) k
           = Some (d, stored) ->
           d == Qmin (initial_backoff (RateLimiter.config rl)
                      * backoff_multiplier (RateLimiter.config rl)
                        ^ Z.of_nat k)
                     (max_backoff (RateLimiter.config rl))
           /\ stored == initial_backoff (RateLimiter.config rl)
                        * backoff_multiplier (RateLimiter.config rl)
                          ^ Z.of_nat (k + 1))
    /\ (forall k : nat,
           In (EvWork (S k))
              (RateLimiter.trace (RateLimiter.execute fuel func rl clk)) ->
           exists d stored : Q,
             nth_error
               (backoff_sleeps
                  (RateLimiter.trace (RateLimiter.execute fuel func rl clk)))
               k
             = Some (d, stored)).
Proof.
  intros T fuel func rl clk.
  assert (Hp : paced (RateLimiter.config rl) O
                 (schedule
                    (RateLimiter.trace
                       (RateLimiter.execute fuel func rl clk)))).
  { unfold RateLimiter.execute.
    destruct (CircuitBreaker.call_allowed (RateLimiter.circuit_breaker rl)
                (wall clk)) as [cb [|]].
    - destruct (RateLimiter.retry_loop fuel func
                  (RateLimiter.enter (RateLimiter.with_breaker rl cb) clk))
        as [[res r] ev] eqn:El.
      unfold RateLimiter.trace. cbn [snd schedule].
      apply (retry_loop_paced func fuel _ _ _ _ El).
      cbn. ring.
    - exact I. }
  split; [exact Hp|].
  destruct (paced_sleeps (RateLimiter.config rl) _ _ O (Nat.le_refl _) Hp)
    as [H1 H2].
  rewrite sleeps_of_schedule in H1, H2.
  split.
  - intros k d stored Hk. apply (H1 k d stored Hk).
  - intros k Hin. apply (H2 k). cbn [Nat.add].
    apply in_schedule. exact Hin.
Qed.

(** The schedule of a call that fails four times on the configuration with
    the sleep capped at three seconds: sleeps of 1, 2 and 3 seconds, each
    before a retry, while the stored backoff goes 2, 4, 8. *)
Remark capped_schedule :
  schedule
    (RateLimiter.trace
       (RateLimiter.execute 10 always_fails
          (RateLimiter.init capped_config 0) clock0))
  = [inl 0%nat; inr (1, 2); inl 1%nat; inr (2, 4); inl 2%nat; inr (3, 8);
     inl 3%nat].
Proof. reflexivity. Qed.

(** An iteration whose two [consume]s are both refused returns to the loop
    condition without invoking the callable and with [retry_count],
    [total_retry_attempts] and the breaker exactly as they were. *)
Lemma still_limited_keeps_counters :
  forall (T : Type) (func : Callable T) (r r1 : RateLimiter.Run)
         (ev : list Event),
    RateLimiter.acquire r = (RateLimiter.StillLimited, r1, ev) ->
    RateLimiter.iteration func r = (inr tt, r1, ev)
    /\ work_invocations ev = O
    /\ RateLimiter.retry_count r1 = RateLimiter.retry_count r
    /\ RateLimitStats.total_retry_attempts
         (RateLimiter.stats (RateLimiter.limiter r1))
       = RateLimitStats.total_retry_attempts
           (RateLimiter.stats (RateLimiter.limiter r))
    /\ RateLimiter.circuit_breaker (RateLimiter.limiter r1)
       = RateLimiter.circuit_breaker (RateLimiter.limiter r).
Proof.
  intros T func r r1 ev Ha.
  destruct (acquire_frame _ _ _ _ Ha)
    as (Hrc & _ & _ & _ & _ & Hcb & Hst & Hw & _).
  unfold RateLimiter.iteration. rewrite Ha.
  repeat split; assumption.
Qed.

(** A bucket that can hold no token refuses twice, whatever the clocks
    read. *)
Lemma acquire_starved (r : RateLimiter.Run) :
  (TokenBucket.capacity (RateLimiter.token_bucket (RateLimiter.limiter r))
   <= 0)%Z ->
  0 < TokenBucket.rate (RateLimiter.token_bucket (RateLimiter.limiter r)) ->
  exists (r1 : RateLimiter.Run) (ev : list Event),
    RateLimiter.acquire r = (RateLimiter.StillLimited, r1, ev)
    /\ TokenBucket.capacity
         (RateLimiter.token_bucket (RateLimiter.limiter r1))
       = TokenBucket.capacity
           (RateLimiter.token_bucket (RateLimiter.limiter r))
    /\ TokenBucket.rate (RateLimiter.token_bucket (RateLimiter.limiter r1))
       = TokenBucket.rate (RateLimiter.token_bucket (RateLimiter.limiter r))
    /\ RateLimitStats.rate_limited_requests
         (RateLimiter.stats (RateLimiter.limiter r1))
       = (RateLimitStats.rate_limited_requests
            (RateLimiter.stats (RateLimiter.limiter r)) + 1)%Z.
Proof.
  intros Hcap Hrate.
  assert (Hdry : forall (b : TokenBucket.t) (now : Q),
             (TokenBucket.capacity b <= 0)%Z -> 0 < TokenBucket.rate b ->
             TokenBucket.consume b now 1
             = (TokenBucket.mk (TokenBucket.rate b) (TokenBucket.capacity b)
                  (TokenBucket.refilled b now) now,
                inr (false,
                     (inject_Z 1 - TokenBucket.refilled b now)
                     / TokenBucket.rate b))
               /\ 0 <= (inject_Z 1 - TokenBucket.refilled b now)
                       / TokenBucket.rate b).
  { intros b now Hc Hr.
    assert (Hle : TokenBucket.refilled b now <= 0).
    { unfold TokenBucket.refilled.
      apply Qle_trans with (inject_Z (TokenBucket.capacity b)).
      - apply Q.le_min_l.
      - change 0 with (inject_Z 0). rewrite <- Zle_Qle. exact Hc. }
    assert (Hlt : TokenBucket.refilled b now < inject_Z 1).
    { change (inject_Z 1) with 1. lra. }
    unfold TokenBucket.consume.
    apply Qle_bool_false in Hlt. rewrite Hlt.
    rewrite (Qeq_bool_false_pos _ Hr). split; [reflexivity|].
    apply Qle_shift_div_l; [exact Hr|]. change (inject_Z 1) with 1. lra. }
  unfold RateLimiter.acquire.
  destruct (Hdry (RateLimiter.token_bucket (RateLimiter.limiter r))
              (monotonic (RateLimiter.clock r)) Hcap Hrate) as [E1 Hw].
  rewrite E1. unfold sleep.
  apply Qle_bool_iff in Hw. rewrite Hw.
  match goal with |- context [TokenBucket.consume ?b ?n 1] =>
    destruct (Hdry b n Hcap Hrate) as [E2 _]; rewrite E2 end.
  eexists _, _. split; [reflexivity|]. cbn. repeat split; reflexivity.
Qed.

Lemma retry_loop_starved {T : Type} (func : Callable T) :
  forall (fuel : nat) (r : RateLimiter.Run),
    (TokenBucket.capacity (RateLimiter.token_bucket (RateLimiter.limiter r))
     <= 0)%Z ->
    0 < TokenBucket.rate (RateLimiter.token_bucket (RateLimiter.limiter r)) ->
    (RateLimiter.retry_count r
     <= max_retries (RateLimiter.config (RateLimiter.limiter r)))%Z ->
    exists (r' : RateLimiter.Run) (evs : list Event),
      RateLimiter.retry_loop fuel func r = (RateLimiter.OutOfFuel, r', evs)
      /\ work_invocations evs = O
      /\ RateLimiter.retry_count r' = RateLimiter.retry_count r
      /\ RateLimitStats.total_retry_attempts
           (RateLimiter.stats (RateLimiter.limiter r'))
         = RateLimitStats.total_retry_attempts
             (RateLimiter.stats (RateLimiter.limiter r))
      /\ RateLimitStats.rate_limited_requests
           (RateLimiter.stats (RateLimiter.limiter r'))
         = (RateLimitStats.rate_limited_requests
              (RateLimiter.stats (RateLimiter.limiter r))
            + Z.of_nat fuel)%Z.
Proof.
  induction fuel as [|fuel IH]; intros r Hcap Hrate Hrc;
    cbn [RateLimiter.retry_loop];
    apply Z.leb_le in Hrc; rewrite Hrc; apply Z.leb_le in Hrc.
  - exists r, []. cbn. repeat split; try reflexivity. lia.
  - destruct (acquire_starved r Hcap Hrate)
      as (r1 & ev & Ha & Hc1 & Hr1 & Hrl).
    destruct (still_limited_keeps_counters T func r r1 ev Ha)
      as (Hit & Hw & Hrc1 & Hst & _).
    destruct (acquire_frame _ _ _ _ Ha) as (_ & _ & _ & _ & Hcfg & _).
    rewrite Hit.
    destruct (IH r1) as (r' & evs & El & I1 & I2 & I3 & I4).
    + rewrite Hc1. exact Hcap.
    + rewrite Hr1. exact Hrate.
    + rewrite Hrc1, Hcfg. exact Hrc.
    + rewrite El. exists r', (ev ++ evs). split; [reflexivity|].
      rewrite work_invocations_app, Hw, I1, I2, I3, I4, Hrc1, Hst, Hrl.
      repeat split; try reflexivity. lia.
Qed.

(** C2, on the code.  With [burst_size = 0] both [consume]s of every
    iteration are refused, and [execute] never leaves its loop: whatever the
    iteration budget, the loop is still running when it is spent, the
    callable has not been invoked, and [retry_count] and
    [total_retry_attempts] are still zero, while one rate-limited request
    was counted per iteration.  The refused iteration is not counted as a
    failed attempt. *)
Theorem starved_execute_never_counts :
  forall (T : Type) (func : Callable T) (fuel : nat),
    RateLimiter.result_of
      (RateLimiter.execute fuel func
         (RateLimiter.init starved_config 0) clock0)
    = RateLimiter.OutOfFuel
    /\ work_invocations
         (RateLimiter.trace
            (RateLimiter.execute fuel func
               (RateLimiter.init starved_config 0) clock0)) = O
    /\ RateLimiter.retry_count
         (RateLimiter.final
            (RateLimiter.execute fuel func
               (RateLimiter.init starved_config 0) clock0)) = 0%Z
    /\ RateLimitStats.total_retry_attempts
         (RateLimiter.stats
            (RateLimiter.limiter
               (RateLimiter.final
                  (RateLimiter.execute fuel func
                     (RateLimiter.init starved_config 0) clock0)))) = 0%Z
    /\ RateLimitStats.rate_limited_requests
         (RateLimiter.stats
            (RateLimiter.limiter
               (RateLimiter.final
                  (RateLimiter.execute fuel func
                     (RateLimiter.init starved_config 0) clock0))))
       = Z.of_nat fuel.
Proof.
  intros T func fuel. unfold RateLimiter.execute.
  destruct (CircuitBreaker.call_allowed _ _) as [cb ok] eqn:E.
  cbn in E. inversion E; subst cb ok. clear E.
  match goal with |- context [RateLimiter.retry_loop fuel func ?r0] =>
    destruct (retry_loop_starved func fuel r0)
      as (r' & evs & El & H1 & H2 & H3 & H4) end.
  - cbn. lia.
  - reflexivity.
  - cbn. lia.
  - rewrite El.
    unfold RateLimiter.result_of, RateLimiter.final, RateLimiter.trace.
    cbn [fst snd].
    change (work_invocations (EvCallAllowed true :: evs))
      with (work_invocations evs).
    rewrite H1, H2, H3, H4. cbn. repeat split; reflexivity.
Qed.

(** The check that moves an open breaker to [HALF_OPEN] is itself granted
    and is not counted in [half_open_calls]: with the default
    [half_open_max_calls = 3], a breaker opened at time 0 grants the check at
    60 and the three that follow, and refuses the fifth. *)
Remark transition_check_is_extra :
  snd (CircuitBreaker.checks
         (CircuitBreaker.mk default_config OPEN 5 (Some 0) 0)
         [60; 61; 62; 63; 64])
  = [true; true; true; true; false].
Proof. reflexivity. Qed.

(** * Further properties of the code *)

(** ** Token bucket: waiting, rate and burst *)

Section TokenBucketMore.

Import TokenBucket.

Lemma inject_Z_nonneg (z : Z) : (0 <= z)%Z -> 0 <= inject_Z z.
Proof. intro H. change 0 with (inject_Z 0). rewrite <- Zle_Qle. exact H. Qed.

(** What a refused [consume] returns, read back from its result. *)
Lemma consume_refused_inv (b b1 : t) (now w : Q) (n : Z) :
  consume b now n = (b1, inr (false, w)) ->
  refilled b now < inject_Z n
  /\ b1 = mk (rate b) (capacity b) (refilled b now) now
  /\ w = (inject_Z n - refilled b now) / rate b.
Proof.
  unfold consume.
  destruct (Qle_bool (inject_Z n) (refilled b now)) eqn:E.
  - intro H; inversion H.
  - destruct (Qeq_bool (rate b) 0); intro H; inversion H; subst.
    apply Qle_bool_false in E. repeat split. exact E.
Qed.

Lemma consume_tokens_nonneg (b : t) (now : Q) (n : Z) :
  0 <= rate b -> (0 <= capacity b)%Z ->
  0 <= tokens b -> last_update b <= now ->
  0 <= tokens (fst (consume b now n)).
Proof.
  intros Hr Hc Ht Hn.
  pose proof (refilled_bounds b now Hr Hc Ht Hn) as [Hlo _].
  unfold consume.
  destruct (Qle_bool (inject_Z n) (refilled b now)) eqn:E.
  - apply Qle_bool_iff in E. cbn [fst tokens]. lra.
  - destruct (Qeq_bool (rate b) 0); cbn [fst tokens]; exact Hlo.
Qed.

Lemma refilled_le_linear (b : t) (now : Q) :
  refilled b now <= tokens b + (now - last_update b) * rate b.
Proof. unfold refilled. apply Q.le_min_r. Qed.

End TokenBucketMore.

(** A refused request is admitted once the reported wait has passed. *)
Lemma consume_after_wait :
  forall (b b1 : TokenBucket.t) (now w later : Q) (n : Z),
    0 < TokenBucket.rate b ->
    (n <= TokenBucket.capacity b)%Z ->
    TokenBucket.consume b now n = (b1, inr (false, w)) ->
    now + w <= later ->
    0 < w
    /\ TokenBucket.consume b1 later n
       = (TokenBucket.mk (TokenBucket.rate b) (TokenBucket.capacity b)
            (TokenBucket.refilled b1 later - inject_Z n) later,
          inr (true, 0)).
Proof.
  intros b b1 now w later n Hrate Hcap Hc Hlater.
  destruct (consume_refused_inv _ _ _ _ _ Hc) as (Hlt & -> & ->).
  set (r := TokenBucket.refilled b now) in *.
  assert (Hw : (inject_Z n - r) / TokenBucket.rate b * TokenBucket.rate b
               == inject_Z n - r).
  { field. intro E. rewrite E in Hrate. apply (Qlt_irrefl 0 Hrate). }
  assert (Hpos : 0 < (inject_Z n - r) / TokenBucket.rate b).
  { apply Qlt_shift_div_l; [exact Hrate | lra]. }
  split; [exact Hpos|].
  assert (Hgrow : (inject_Z n - r) / TokenBucket.rate b * TokenBucket.rate b
                  <= (later - now) * TokenBucket.rate b).
  { apply Qmult_le_compat_r; lra. }
  assert (Hn : inject_Z n <= inject_Z (TokenBucket.capacity b))
    by (rewrite <- Zle_Qle; exact Hcap).
  unfold TokenBucket.consume.
  assert (E : Qle_bool (inject_Z n)
                (TokenBucket.refilled
                   (TokenBucket.mk (TokenBucket.rate b)
                      (TokenBucket.capacity b) r now) later) = true).
  { apply Qle_bool_iff. unfold TokenBucket.refilled. cbn.
    apply Q.min_glb; [exact Hn | lra]. }
  rewrite E. reflexivity.
Qed.

(** X2.  The bucket enforces its rate: on a clock that never goes back, the
    tokens a sequence of [consume] calls hands out never exceed the balance
    it started with plus [rate] times the time from the bucket's stamp to
    the last call. *)
Theorem admitted_within_rate :
  forall (b : TokenBucket.t) (calls : list (Q * Z)),
    0 <= TokenBucket.rate b ->
    (0 <= TokenBucket.capacity b)%Z ->
    0 <= TokenBucket.tokens b ->
    TokenBucket.clock_nondecreasing (TokenBucket.last_update b) calls ->
    inject_Z (TokenBucket.admitted_total b calls)
    <= TokenBucket.tokens b
       + TokenBucket.rate b
         * (TokenBucket.last_reading (TokenBucket.last_update b) calls
            - TokenBucket.last_update b).
Proof.
  intros b calls. revert b.
  induction calls as [|[now n] rest IH]; intros b Hr Hc Ht Hck.
  - cbn [TokenBucket.admitted_total TokenBucket.last_reading].
    change (inject_Z 0) with 0. lra.
  - destruct Hck as [Hle Hck]. cbn [TokenBucket.admitted_total
                                      TokenBucket.last_reading].
    pose proof (consume_tokens_nonneg b now n Hr Hc Ht Hle) as Ht'.
    pose proof (consume_rate b now n) as Er.
    pose proof (consume_capacity b now n) as Ec.
    pose proof (consume_last_update b now n) as El.
    pose proof (refilled_le_linear b now) as Hlin.
    assert (Hstep :
              inject_Z (match snd (TokenBucket.consume b now n) with
                        | inr (true, _) => n
                        | _ => 0%Z
                        end)
              + TokenBucket.tokens (fst (TokenBucket.consume b now n))
              <= TokenBucket.refilled b now).
    { pose proof (refilled_bounds b now Hr Hc Ht Hle) as [Hlo _].
      unfold TokenBucket.consume.
      destruct (Qle_bool (inject_Z n) (TokenBucket.refilled b now)).
      - cbn [fst snd TokenBucket.tokens]. lra.
      - destruct (Qeq_bool (TokenBucket.rate b) 0);
          cbn [fst snd TokenBucket.tokens];
          change (inject_Z 0) with 0; lra. }
    destruct (TokenBucket.consume b now n) as [b' a].
    cbn [fst snd] in *.
    specialize (IH b'). rewrite Er, Ec, El in IH.
    specialize (IH Hr Hc Ht' Hck).
    rewrite inject_Z_plus. lra.
Qed.

Lemma admitted_within_rate_witness :
  inject_Z (TokenBucket.admitted_total (TokenBucket.init 2 2 0)
              [(0, 1%Z); (0, 1%Z); (0, 1%Z); (1 # 2, 1%Z)])
  <= TokenBucket.tokens (TokenBucket.init 2 2 0)
     + TokenBucket.rate (TokenBucket.init 2 2 0)
       * (TokenBucket.last_reading
            (TokenBucket.last_update (TokenBucket.init 2 2 0))
            [(0, 1%Z); (0, 1%Z); (0, 1%Z); (1 # 2, 1%Z)]
          - TokenBucket.last_update (TokenBucket.init 2 2 0)).
Proof.
  apply (admitted_within_rate (TokenBucket.init 2 2 0)
           [(0, 1%Z); (0, 1%Z); (0, 1%Z); (1 # 2, 1%Z)]).
  - cbn. discriminate.
  - cbn. lia.
  - cbn. discriminate.
  - cbn. repeat split; discriminate.
Defined.

(** A bucket holding [k] whole tokens, asked for one token [k + 1] times
    without the clock moving, admits [k] times and then refuses with a wait
    of [1 / rate]. *)
Lemma answers_at_standstill (k : nat) :
  forall b : TokenBucket.t,
    0 < TokenBucket.rate b ->
    TokenBucket.tokens b == inject_Z (Z.of_nat k) ->
    (Z.of_nat k <= TokenBucket.capacity b)%Z ->
    exists w : Q,
      TokenBucket.answers b
        (repeat (TokenBucket.last_update b, 1%Z) (k + 1))
      = repeat (inr (true, 0)) k ++ [inr (false, w)]
      /\ w == 1 / TokenBucket.rate b.
Proof.
  induction k as [|k IH]; intros b Hrate Htok Hcap.
  - assert (Hr : TokenBucket.refilled b (TokenBucket.last_update b) == 0).
    { unfold TokenBucket.refilled. rewrite Q.min_r.
      - rewrite Htok. cbn. ring.
      - rewrite Htok. apply Qle_trans with (inject_Z (Z.of_nat 0)).
        + cbn. ring_simplify. apply Qle_refl.
        + rewrite <- Zle_Qle. exact Hcap. }
    cbn [Nat.add repeat TokenBucket.answers app]. unfold TokenBucket.consume.
    assert (E : Qle_bool (inject_Z 1)
                  (TokenBucket.refilled b (TokenBucket.last_update b))
                = false).
    { apply Qle_bool_false. rewrite Hr. reflexivity. }
    rewrite E, (Qeq_bool_false_pos _ Hrate).
    eexists. split; [reflexivity|]. rewrite Hr.
    change (inject_Z 1) with 1. unfold Qminus. rewrite Qplus_0_r.
    reflexivity.
  - assert (Hk : inject_Z (Z.of_nat (S k)) == inject_Z (Z.of_nat k) + 1).
    { rewrite Nat2Z.inj_succ. unfold Z.succ. rewrite inject_Z_plus.
      reflexivity. }
    assert (Hr : TokenBucket.refilled b (TokenBucket.last_update b)
                 == inject_Z (Z.of_nat k) + 1).
    { unfold TokenBucket.refilled. rewrite Q.min_r.
      - rewrite Htok, Hk. ring.
      - rewrite Htok. apply Qle_trans with (inject_Z (Z.of_nat (S k))).
        + ring_simplify. apply Qle_refl.
        + rewrite <- Zle_Qle. exact Hcap. }
    cbn [Nat.add repeat TokenBucket.answers app]. unfold TokenBucket.consume.
    assert (E : Qle_bool (inject_Z 1)
                  (TokenBucket.refilled b (TokenBucket.last_update b))
                = true).
    { apply Qle_bool_iff. rewrite Hr. change (inject_Z 1) with 1.
      pose proof (inject_Z_nonneg (Z.of_nat k) (Nat2Z.is_nonneg k)). lra. }
    rewrite E.
    match goal with |- context [TokenBucket.answers ?b1 _] =>
      destruct (IH b1) as (w & Ha & Hw) end.
    + exact Hrate.
    + cbn [TokenBucket.tokens]. rewrite Hr. change (inject_Z 1) with 1. ring.
    + cbn [TokenBucket.capacity]. lia.
    + cbn [TokenBucket.last_update TokenBucket.rate] in Ha, Hw.
      exists w. split; [|exact Hw].
      cbn [repeat app]. f_equal. exact Ha.
Qed.

(** X3.  Burst then refusal: a bucket just created with [capacity >= 0] and
    a positive rate admits exactly [capacity] one-token requests made
    without the clock advancing, and refuses the next with a wait of
    [1 / rate]. *)
Theorem burst_then_refusal :
  forall (rate : Q) (capacity : Z) (t0 : Q),
    0 < rate -> (0 <= capacity)%Z ->
    exists w : Q,
      TokenBucket.answers (TokenBucket.init rate capacity t0)
        (repeat (t0, 1%Z) (Z.to_nat capacity + 1))
      = repeat (inr (true, 0)) (Z.to_nat capacity) ++ [inr (false, w)]
      /\ w == 1 / rate.
Proof.
  intros rate capacity t0 Hrate Hcap.
  apply (answers_at_standstill (Z.to_nat capacity)
           (TokenBucket.init rate capacity t0)).
  - exact Hrate.
  - cbn. rewrite Z2Nat.id by exact Hcap. reflexivity.
  - cbn. rewrite Z2Nat.id by exact Hcap. lia.
Qed.

Lemma burst_then_refusal_witness :
  exists w : Q,
    TokenBucket.answers (TokenBucket.init 2 2 0)
      (repeat (0, 1%Z) (Z.to_nat 2 + 1))
    = repeat (inr (true, 0)) (Z.to_nat 2) ++ [inr (false, w)]
    /\ w == 1 / 2.
Proof.
  apply (burst_then_refusal 2 2 0).
  - reflexivity.
  - lia.
Defined.

(** ** Circuit breaker: reopening and what holds along every run *)

(** X4.  A failure recorded while the breaker is [OPEN] or [HALF_OPEN]
    leaves it [OPEN] and restarts the recovery window at the time of that
    failure: every admission check before that time plus
    [recovery_timeout] is refused and changes nothing, whatever the counters
    and the threshold are. *)
Theorem failure_restarts_recovery :
  forall (cb : CircuitBreaker.t) (failed_at now : Q),
    CircuitBreaker.state cb <> CLOSED ->
    now < failed_at + recovery_timeout (CircuitBreaker.config cb) ->
    CircuitBreaker.state (CircuitBreaker.record_failure cb failed_at) = OPEN
    /\ CircuitBreaker.last_failure_time
         (CircuitBreaker.record_failure cb failed_at) = Some failed_at
    /\ CircuitBreaker.call_allowed
         (CircuitBreaker.record_failure cb failed_at) now
       = (CircuitBreaker.record_failure cb failed_at, false).
Proof.
  intros cb failed_at now Hs Hnow.
  assert (H : CircuitBreaker.state
                (CircuitBreaker.record_failure cb failed_at) = OPEN
              /\ CircuitBreaker.last_failure_time
                   (CircuitBreaker.record_failure cb failed_at)
                 = Some failed_at
              /\ CircuitBreaker.config
                   (CircuitBreaker.record_failure cb failed_at)
                 = CircuitBreaker.config cb).
  { unfold CircuitBreaker.record_failure. cbn.
    destruct (CircuitBreaker.state cb) eqn:E; [congruence| |].
    - destruct (_ <=? _)%Z; cbn; rewrite ?E; repeat split; reflexivity.
    - cbn. repeat split; reflexivity. }
  destruct H as (H1 & H2 & H3).
  split; [exact H1|]. split; [exact H2|].
  apply (call_allowed_open_early _ failed_at now H1 H2).
  rewrite H3. exact Hnow.
Qed.

Lemma failure_restarts_recovery_witness :
  CircuitBreaker.state
    (CircuitBreaker.record_failure
       (CircuitBreaker.mk default_config HALF_OPEN 5 (Some 0) 1) 70) = OPEN
  /\ CircuitBreaker.last_failure_time
       (CircuitBreaker.record_failure
          (CircuitBreaker.mk default_config HALF_OPEN 5 (Some 0) 1) 70)
     = Some 70
  /\ CircuitBreaker.call_allowed
       (CircuitBreaker.record_failure
          (CircuitBreaker.mk default_config HALF_OPEN 5 (Some 0) 1) 70) 129
     = (CircuitBreaker.record_failure
          (CircuitBreaker.mk default_config HALF_OPEN 5 (Some 0) 1) 70,
        false).
Proof.
  apply (failure_restarts_recovery
           (CircuitBreaker.mk default_config HALF_OPEN 5 (Some 0) 1) 70 129).
  - cbn. discriminate.
  - reflexivity.
Defined.

Section CircuitBreakerRuns.

Import CircuitBreaker.

(** An open breaker carries the time of a failure; kept by every
    operation. *)
Lemma step_open_stamped (cb : t) (op : Op) :
  (state cb = OPEN -> last_failure_time cb <> None) ->
  state (fst (step cb op)) = OPEN ->
  last_failure_time (fst (step cb op)) <> None.
Proof.
  intros Hinv. destruct op as [now| |now]; cbn.
  - unfold call_allowed. destruct (state cb) eqn:E; cbn.
    + rewrite E. discriminate.
    + destruct (last_failure_time cb) eqn:El; cbn.
      * destruct (Qle_bool _ _); cbn; [discriminate|].
        intros _. rewrite El. discriminate.
      * intros _. exfalso. apply Hinv; reflexivity.
    + destruct (_ <? _)%Z; cbn; try rewrite E; discriminate.
  - unfold record_success. destruct (state cb) eqn:E; cbn;
      rewrite ?E; try discriminate.
    intros _. apply Hinv. reflexivity.
  - unfold record_failure. cbn.
    destruct (state cb) eqn:E; cbn; try discriminate;
      destruct (_ <=? _)%Z; cbn; discriminate.
Qed.

Lemma run_open_stamped (ops : list Op) :
  forall cb : t,
    (state cb = OPEN -> last_failure_time cb <> None) ->
    state (run cb ops) = OPEN -> last_failure_time (run cb ops) <> None.
Proof.
  induction ops as [|op ops IH]; intros cb Hinv; cbn.
  - exact Hinv.
  - apply IH. apply step_open_stamped. exact Hinv.
Qed.

Lemma step_count_in_range (cb : t) (op : Op) :
  (1 <= failure_threshold (config cb))%Z ->
  count_in_range cb -> count_in_range (fst (step cb op)).
Proof.
  intros Hth [H0 Hc]. unfold count_in_range.
  destruct op as [now| |now]; cbn.
  - unfold call_allowed. destruct (state cb) eqn:E; cbn.
    + rewrite E. split; [exact H0 | intros _; apply Hc; reflexivity].
    + destruct (last_failure_time cb); cbn;
        [destruct (Qle_bool _ _); cbn|]; rewrite ?E;
        (split; [exact H0 | discriminate]).
    + destruct (_ <? _)%Z; cbn; rewrite ?E;
        (split; [exact H0 | discriminate]).
  - unfold record_success. destruct (state cb) eqn:E; cbn; rewrite ?E;
      (split; [lia | intros _; lia || discriminate]).
  - unfold record_failure. cbn. destruct (state cb) eqn:E; cbn.
    + destruct (Z.leb_spec (failure_threshold (config cb))
                           (failure_count cb + 1)); cbn.
      * split; [lia | discriminate].
      * rewrite ?E. split; [lia | intros _; lia].
    + destruct (_ <=? _)%Z; cbn; rewrite ?E; (split; [lia | discriminate]).
    + split; [lia | discriminate].
Qed.

Lemma run_count_in_range (ops : list Op) :
  forall cb : t,
    (1 <= failure_threshold (config cb))%Z ->
    count_in_range cb -> count_in_range (run cb ops).
Proof.
  induction ops as [|op ops IH]; intros cb Hth Hinv; cbn.
  - exact Hinv.
  - apply IH.
    + rewrite step_config. exact Hth.
    + apply step_count_in_range; assumption.
Qed.

End CircuitBreakerRuns.

(** X5.  A breaker that got [OPEN] through its own operations is never
    stuck: it holds the time [T] of a failure, and any admission check at or
    after [T + recovery_timeout] is granted and moves it to [HALF_OPEN].
    (A breaker forced [OPEN] with no failure time would refuse for ever.) *)
Theorem open_breaker_recovers :
  forall (cfg : RateLimitConfig) (ops : list CircuitBreaker.Op),
    CircuitBreaker.state (CircuitBreaker.run (CircuitBreaker.init cfg) ops)
    = OPEN ->
    exists T : Q,
      CircuitBreaker.last_failure_time
        (CircuitBreaker.run (CircuitBreaker.init cfg) ops) = Some T
      /\ forall now : Q,
           T + recovery_timeout cfg <= now ->
           CircuitBreaker.call_allowed
             (CircuitBreaker.run (CircuitBreaker.init cfg) ops) now
           = (CircuitBreaker._transition_to
                (CircuitBreaker.run (CircuitBreaker.init cfg) ops) HALF_OPEN,
              true).
Proof.
  intros cfg ops Hs.
  pose proof (run_open_stamped ops (CircuitBreaker.init cfg)) as H.
  destruct (CircuitBreaker.last_failure_time
              (CircuitBreaker.run (CircuitBreaker.init cfg) ops))
    as [T|] eqn:El.
  - exists T. split; [reflexivity|]. intros now Hnow.
    apply (call_allowed_open_due _ T now Hs El).
    rewrite run_config. exact Hnow.
  - exfalso. apply H; [cbn; discriminate | exact Hs | reflexivity].
Qed.

Lemma open_breaker_recovers_witness :
  exists T : Q,
    CircuitBreaker.last_failure_time
      (CircuitBreaker.run (CircuitBreaker.init default_config)
         (map CircuitBreaker.RecordFailure [1; 2; 3; 4; 5])) = Some T
    /\ forall now : Q,
         T + recovery_timeout default_config <= now ->
         CircuitBreaker.call_allowed
           (CircuitBreaker.run (CircuitBreaker.init default_config)
              (map CircuitBreaker.RecordFailure [1; 2; 3; 4; 5])) now
         = (CircuitBreaker._transition_to
              (CircuitBreaker.run (CircuitBreaker.init default_config)
                 (map CircuitBreaker.RecordFailure [1; 2; 3; 4; 5]))
              HALF_OPEN,
            true).
Proof.
  apply (open_breaker_recovers default_config
           (map CircuitBreaker.RecordFailure [1; 2; 3; 4; 5])).
  reflexivity.
Defined.

(** X6.  Along every run of a breaker built by [__init__] with
    [failure_threshold >= 1], [failure_count] is never negative, and a
    [CLOSED] breaker always holds fewer failures than the threshold. *)
Theorem closed_breaker_below_threshold :
  forall (cfg : RateLimitConfig) (ops : list CircuitBreaker.Op),
    (1 <= failure_threshold cfg)%Z ->
    (0 <= CircuitBreaker.failure_count
            (CircuitBreaker.run (CircuitBreaker.init cfg) ops))%Z
    /\ (CircuitBreaker.state
          (CircuitBreaker.run (CircuitBreaker.init cfg) ops) = CLOSED ->
        (CircuitBreaker.failure_count
           (CircuitBreaker.run (CircuitBreaker.init cfg) ops)
         < failure_threshold cfg)%Z).
Proof.
  intros cfg ops Hth.
  pose proof (run_count_in_range ops (CircuitBreaker.init cfg) Hth) as H.
  unfold CircuitBreaker.count_in_range in H.
  rewrite run_config in H. apply H. cbn. split; [lia | intros _; lia].
Qed.

Lemma closed_breaker_below_threshold_witness :
  (0 <= CircuitBreaker.failure_count
          (CircuitBreaker.run (CircuitBreaker.init default_config)
             [CircuitBreaker.RecordFailure 1%Q;
              CircuitBreaker.RecordFailure 2%Q;
              CircuitBreaker.RecordSuccess;
              CircuitBreaker.RecordFailure 3%Q]))%Z
  /\ (CircuitBreaker.state
        (CircuitBreaker.run (CircuitBreaker.init default_config)
           [CircuitBreaker.RecordFailure 1;
            CircuitBreaker.RecordFailure 2;
            CircuitBreaker.RecordSuccess;
            CircuitBreaker.RecordFailure 3]) = CLOSED ->
      (CircuitBreaker.failure_count
         (CircuitBreaker.run (CircuitBreaker.init default_config)
            [CircuitBreaker.RecordFailure 1%Q;
             CircuitBreaker.RecordFailure 2%Q;
             CircuitBreaker.RecordSuccess;
             CircuitBreaker.RecordFailure 3%Q])
       < failure_threshold default_config)%Z).
Proof.
  apply (closed_breaker_below_threshold default_config
           [CircuitBreaker.RecordFailure 1;
            CircuitBreaker.RecordFailure 2;
            CircuitBreaker.RecordSuccess;
            CircuitBreaker.RecordFailure 3]).
  cbn. lia.
Defined.

(** ** Rate limiter: statistics *)

Section RateLimiterStatistics.

Import RateLimiter.

Lemma accounted_refl (s : RateLimitStats.t) :
  RateLimitStats.accounted s s 0 0.
Proof. unfold RateLimitStats.accounted. repeat split; lia. Qed.

Lemma accounted_trans (s1 s2 s3 : RateLimitStats.t) (j k d e : Z) :
  RateLimitStats.accounted s1 s2 j d -> RateLimitStats.accounted s2 s3 k e ->
  RateLimitStats.accounted s1 s3 (j + k) (d + e).
Proof.
  unfold RateLimitStats.accounted.
  intros (A1 & A2 & A3 & A4 & A5 & A6 & A7) (B1 & B2 & B3 & B4 & B5 & B6 & B7).
  repeat split; lia.
Qed.

Lemma acquire_accounted (r r1 : Run) (a : Acquired) (ev : list Event) :
  acquire r = (a, r1, ev) ->
  RateLimitStats.accounted (stats (limiter r)) (stats (limiter r1)) 0 0
  /\ RateLimitStats.successful_requests (stats (limiter r1))
     = RateLimitStats.successful_requests (stats (limiter r)).
Proof.
  unfold acquire, RateLimitStats.accounted.
  destruct (TokenBucket.consume _ _ _) as [b1 [e|[[|] w]]].
  - intro H; inversion H; subst; cbn; repeat split; lia.
  - intro H; inversion H; subst; cbn; repeat split; lia.
  - destruct (sleep (clock r) w) as [e|clk1].
    + intro H; inversion H; subst; cbn; repeat split; lia.
    + destruct (TokenBucket.consume b1 _ _) as [b2 [e|[ok w2]]];
        intro H; inversion H; subst; cbn; repeat split; lia.
Qed.

Lemma attempt_accounted {T : Type} (func : Callable T) (r r2 : Run)
      (x : Attempt T) (ev : list Event) :
  attempt func r = (x, r2, ev) ->
  RateLimitStats.accounted (stats (limiter r)) (stats (limiter r2)) 1
    (match x with AttemptEscaped _ => 1 | _ => 0 end)
  /\ work_invocations ev = 1%nat
  /\ RateLimitStats.successful_requests (stats (limiter r2))
     = (RateLimitStats.successful_requests (stats (limiter r))
        + match x with Done _ => 1 | _ => 0 end)%Z.
Proof.
  unfold attempt, RateLimitStats.accounted.
  destruct (outcome (func (calls r))) as [v|e|b].
  - intro H; inversion H; subst; cbn; repeat split; lia.
  - cbv zeta. destruct (_ <=? _)%Z.
    + destruct (sleep _ _) as [exc|clk2]; intro H; inversion H; subst; cbn;
        repeat split; lia.
    + intro H; inversion H; subst; cbn; repeat split; lia.
  - intro H; inversion H; subst; cbn; repeat split; lia.
Qed.

Lemma iteration_accounted {T : Type} (func : Callable T) (r r1 : Run)
      (x : Result T + unit) (ev : list Event) :
  iteration func r = (x, r1, ev) ->
  RateLimitStats.accounted (stats (limiter r)) (stats (limiter r1))
    (Z.of_nat (work_invocations ev))
    (match x with inl res => escaped res | inr _ => 0 end)
  /\ RateLimitStats.successful_requests (stats (limiter r1))
     = (RateLimitStats.successful_requests (stats (limiter r))
        + match x with inl res => returned res | inr _ => 0 end)%Z.
Proof.
  unfold iteration.
  destruct (acquire r) as [[a ra] eva] eqn:Ea.
  destruct (acquire_accounted _ _ _ _ Ea) as [Hacc Hs].
  destruct (acquire_frame _ _ _ _ Ea) as (_ & _ & _ & _ & _ & _ & _ & Hw & _).
  destruct a.
  - destruct (attempt func ra) as [[y r2] ev2] eqn:Eat.
    destruct (attempt_accounted _ _ _ _ _ Eat) as (Hacc2 & Hw2 & Hs2).
    pose proof (accounted_trans _ _ _ _ _ _ _ Hacc Hacc2) as Hacc3.
    assert (Hcount : Z.of_nat (work_invocations (eva ++ ev2)) = (0 + 1)%Z).
    { rewrite work_invocations_app, Hw, Hw2. reflexivity. }
    destruct y; intro H; inversion H; subst; rewrite Hcount;
      (split; [exact Hacc3 | rewrite Hs2, Hs; cbn; lia]).
  - intro H; inversion H; subst. rewrite Hw.
    split; [exact Hacc | rewrite Hs; cbn; lia].
  - intro H; inversion H; subst. rewrite Hw.
    split; [exact Hacc | rewrite Hs; cbn; lia].
Qed.

Lemma retry_loop_accounted {T : Type} (func : Callable T) :
  forall (fuel : nat) (r r' : Run) (res : Result T) (evs : list Event),
    retry_loop fuel func r = (res, r', evs) ->
    RateLimitStats.accounted (stats (limiter r)) (stats (limiter r'))
      (Z.of_nat (work_invocations evs)) (escaped res)
    /\ RateLimitStats.successful_requests (stats (limiter r'))
       = (RateLimitStats.successful_requests (stats (limiter r))
          + returned res)%Z.
Proof.
  induction fuel as [|fuel IH]; intros r r' res evs Hloop;
    cbn [retry_loop] in Hloop.
  - destruct (_ <=? _)%Z; inversion Hloop; subst; cbn;
      (split; [apply accounted_refl | lia]).
  - destruct (_ <=? _)%Z;
      [|inversion Hloop; subst; cbn; (split; [apply accounted_refl | lia])].
    destruct (iteration func r) as [[x r1] ev] eqn:Eit.
    destruct (iteration_accounted _ _ _ _ _ Eit) as [Hacc Hs].
    destruct x as [resx|[]].
    + inversion Hloop; subst. split; assumption.
    + destruct (retry_loop fuel func r1) as [[res2 r2] ev2] eqn:El.
      inversion Hloop; subst.
      destruct (IH _ _ _ _ El) as [Hacc2 Hs2].
      rewrite work_invocations_app, Nat2Z.inj_add.
      split; [exact (accounted_trans _ _ _ _ _ _ _ Hacc Hacc2)|].
      rewrite Hs2, Hs. lia.
Qed.

End RateLimiterStatistics.

(** X7.  The books of one [execute] call, whatever the callable does and
    however the call ends: [total_requests] grows by the number of
    invocations of the callable; successes and failures together grow by
    that number, less one when the call ends with an exception of the
    callable that is no [Exception] (which the handler does not catch, so
    that the request is counted but neither as success nor as failure);
    [successful_requests] grows by one exactly when the call returns a
    value; [total_retry_attempts] grows by as much as [failed_requests]; no
    counter goes down; and [circuit_breaker_rejections] grows by one exactly
    when the trace is the refused admission check. *)
Theorem execute_books :
  forall (T : Type) (fuel : nat) (func : Callable T)
         (rl : RateLimiter.t) (clk : Clock),
    RateLimitStats.total_requests
      (RateLimiter.stats
         (RateLimiter.limiter
            (RateLimiter.final (RateLimiter.execute fuel func rl clk))))
    = (RateLimitStats.total_requests (RateLimiter.stats rl)
       + Z.of_nat (work_invocations
                     (RateLimiter.trace
                        (RateLimiter.execute fuel func rl clk))))%Z
    /\ (RateLimitStats.successful_requests
          (RateLimiter.stats
             (RateLimiter.limiter
                (RateLimiter.final (RateLimiter.execute fuel func rl clk))))
        + RateLimitStats.failed_requests
            (RateLimiter.stats
               (RateLimiter.limiter
                  (RateLimiter.final (RateLimiter.execute fuel func rl clk))))
        = RateLimitStats.successful_requests (RateLimiter.stats rl)
          + RateLimitStats.failed_requests (RateLimiter.stats rl)
          + Z.of_nat (work_invocations
                        (RateLimiter.trace
                           (RateLimiter.execute fuel func rl clk)))
          - RateLimiter.escaped
              (RateLimiter.result_of
                 (RateLimiter.execute fuel func rl clk)))%Z
    /\ RateLimitStats.successful_requests
         (RateLimiter.stats
            (RateLimiter.limiter
               (RateLimiter.final (RateLimiter.execute fuel func rl clk))))
       = (RateLimitStats.successful_requests (RateLimiter.stats rl)
          + RateLimiter.returned
              (RateLimiter.result_of
                 (RateLimiter.execute fuel func rl clk)))%Z
    /\ (RateLimitStats.total_retry_attempts
          (RateLimiter.stats
             (RateLimiter.limiter
                (RateLimiter.final (RateLimiter.execute fuel func rl clk))))
        - RateLimitStats.total_retry_attempts (RateLimiter.stats rl)
        = RateLimitStats.failed_requests
            (RateLimiter.stats
               (RateLimiter.limiter
                  (RateLimiter.final (RateLimiter.execute fuel func rl clk))))
          - RateLimitStats.failed_requests (RateLimiter.stats rl))%Z
    /\ (RateLimitStats.failed_requests (RateLimiter.stats rl)
        <= RateLimitStats.failed_requests
             (RateLimiter.stats
                (RateLimiter.limiter
                   (RateLimiter.final
                      (RateLimiter.execute fuel func rl clk)))))%Z
    /\ (RateLimitStats.rate_limited_requests (RateLimiter.stats rl)
        <= RateLimitStats.rate_limited_requests
             (RateLimiter.stats
                (RateLimiter.limiter
                   (RateLimiter.final
                      (RateLimiter.execute fuel func rl clk)))))%Z
    /\ RateLimitStats.circuit_breaker_rejections
         (RateLimiter.stats
            (RateLimiter.limiter
               (RateLimiter.final (RateLimiter.execute fuel func rl clk))))
       = (RateLimitStats.circuit_breaker_rejections (RateLimiter.stats rl)
          + match RateLimiter.trace (RateLimiter.execute fuel func rl clk) with
            | EvCallAllowed false :: _ => 1
            | _ => 0
            end)%Z.
Proof.
  intros T fuel func rl clk. unfold RateLimiter.execute.
  destruct (CircuitBreaker.call_allowed (RateLimiter.circuit_breaker rl)
              (wall clk)) as [cb [|]].
  - destruct (RateLimiter.retry_loop fuel func
                (RateLimiter.enter (RateLimiter.with_breaker rl cb) clk))
      as [[res r] ev] eqn:El.
    destruct (retry_loop_accounted func _ _ _ _ _ El)
      as [(A1 & A2 & A3 & A4 & A5 & A6 & A7) Hs].
    unfold RateLimiter.trace, RateLimiter.final, RateLimiter.result_of.
    cbn [fst snd].
    change (work_invocations (EvCallAllowed true :: ev))
      with (work_invocations ev).
    cbn [RateLimiter.enter RateLimiter.limiter RateLimiter.with_breaker
         RateLimiter.stats] in *.
    repeat split; lia.
  - unfold RateLimiter.trace, RateLimiter.final, RateLimiter.result_of.
    cbn. repeat split; lia.
Qed.

(** On statistics in which the successes are between zero and the total,
    [success_rate()] lies between 0 and 1; it is 0 before any request. *)
Lemma success_rate_bounds :
  forall s : RateLimitStats.t,
    (0 <= RateLimitStats.successful_requests s)%Z ->
    (RateLimitStats.successful_requests s
     <= RateLimitStats.total_requests s)%Z ->
    0 <= RateLimitStats.success_rate s <= 1
    /\ (RateLimitStats.total_requests s = 0%Z ->
        RateLimitStats.success_rate s = 0).
Proof.
  intros s H0 Hle. unfold RateLimitStats.success_rate.
  destruct (Z.eqb_spec (RateLimitStats.total_requests s) 0) as [E|E].
  - split; [split; discriminate | reflexivity].
  - assert (Hpos : 0 < inject_Z (RateLimitStats.total_requests s)).
    { change 0 with (inject_Z 0). rewrite <- Zlt_Qlt. lia. }
    split; [|intro; contradiction]. split.
    + apply Qle_shift_div_l; [exact Hpos|]. rewrite Qmult_0_l.
      apply inject_Z_nonneg. exact H0.
    + apply Qle_shift_div_r; [exact Hpos|]. rewrite Qmult_1_l.
      rewrite <- Zle_Qle. exact Hle.
Qed.

(** X8.  The rate stays a rate: when successes and failures are not
    negative and together no more than [total_requests] before an [execute]
    call (as on a fresh or reset limiter), the same holds after it, however
    the call ends, and [success_rate()] then lies between 0 and 1. *)
Theorem success_rate_stays_a_rate :
  forall (T : Type) (fuel : nat) (func : Callable T)
         (rl : RateLimiter.t) (clk : Clock),
    (0 <= RateLimitStats.successful_requests (RateLimiter.stats rl))%Z ->
    (0 <= RateLimitStats.failed_requests (RateLimiter.stats rl))%Z ->
    (RateLimitStats.successful_requests (RateLimiter.stats rl)
     + RateLimitStats.failed_requests (RateLimiter.stats rl)
     <= RateLimitStats.total_requests (RateLimiter.stats rl))%Z ->
    (0 <= RateLimitStats.successful_requests
            (RateLimiter.stats
               (RateLimiter.limiter
                  (RateLimiter.final
                     (RateLimiter.execute fuel func rl clk)))))%Z
    /\ (0 <= RateLimitStats.failed_requests
               (RateLimiter.stats
                  (RateLimiter.limiter
                     (RateLimiter.final
                        (RateLimiter.execute fuel func rl clk)))))%Z
    /\ (RateLimitStats.successful_requests
          (RateLimiter.stats
             (RateLimiter.limiter
                (RateLimiter.final (RateLimiter.execute fuel func rl clk))))
        + RateLimitStats.failed_requests
            (RateLimiter.stats
               (RateLimiter.limiter
                  (RateLimiter.final (RateLimiter.execute fuel func rl clk))))
        <= RateLimitStats.total_requests
             (RateLimiter.stats
                (RateLimiter.limiter
                   (RateLimiter.final
                      (RateLimiter.execute fuel func rl clk)))))%Z
    /\ 0 <= RateLimitStats.success_rate
              (RateLimiter.stats
                 (RateLimiter.limiter
                    (RateLimiter.final
                       (RateLimiter.execute fuel func rl clk)))) <= 1.
Proof.
  intros T fuel func rl clk Hs Hf Htot.
  unfold RateLimiter.execute.
  destruct (CircuitBreaker.call_allowed (RateLimiter.circuit_breaker rl)
              (wall clk)) as [cb [|]].
  - destruct (RateLimiter.retry_loop fuel func
                (RateLimiter.enter (RateLimiter.with_breaker rl cb) clk))
      as [[res r] ev] eqn:El.
    destruct (retry_loop_accounted func _ _ _ _ _ El)
      as [(A1 & A2 & A3 & A4 & A5 & A6 & A7) _].
    unfold RateLimiter.final. cbn [fst snd].
    cbn [RateLimiter.enter RateLimiter.limiter RateLimiter.with_breaker
         RateLimiter.stats] in *.
    assert (He : (0 <= RateLimiter.escaped res)%Z)
      by (destruct res; cbn; lia).
    assert (B1 : (0 <= RateLimitStats.successful_requests
                         (RateLimiter.stats (RateLimiter.limiter r)))%Z)
      by lia.
    assert (B2 : (0 <= RateLimitStats.failed_requests
                         (RateLimiter.stats (RateLimiter.limiter r)))%Z)
      by lia.
    repeat split; try lia;
      apply success_rate_bounds; lia.
  - unfold RateLimiter.final. cbn.
    repeat split; try lia;
      apply (success_rate_bounds
               (RateLimitStats.rejected (RateLimiter.stats rl)));
      cbn; lia.
Qed.

(** A callable stopped by [KeyboardInterrupt] on a fresh limiter: one
    request, no success, no failure. *)
Lemma success_rate_stays_a_rate_witness :
  (0 <= RateLimitStats.successful_requests
          (RateLimiter.stats
             (RateLimiter.limiter
                (RateLimiter.final
                   (RateLimiter.execute 10
                      (fun _ => mkCall (T := unit)
                                  (Escapes KeyboardInterrupt) 0)
                      (RateLimiter.init default_config 0) clock0)))))%Z
  /\ (0 <= RateLimitStats.failed_requests
             (RateLimiter.stats
                (RateLimiter.limiter
                   (RateLimiter.final
                      (RateLimiter.execute 10
                         (fun _ => mkCall (T := unit)
                                     (Escapes KeyboardInterrupt) 0)
                         (RateLimiter.init default_config 0) clock0)))))%Z
  /\ (RateLimitStats.successful_requests
        (RateLimiter.stats
           (RateLimiter.limiter
              (RateLimiter.final
                 (RateLimiter.execute 10
                    (fun _ => mkCall (T := unit)
                                (Escapes KeyboardInterrupt) 0)
                    (RateLimiter.init default_config 0) clock0))))
      + RateLimitStats.failed_requests
          (RateLimiter.stats
             (RateLimiter.limiter
                (RateLimiter.final
                   (RateLimiter.execute 10
                      (fun _ => mkCall (T := unit)
                                  (Escapes KeyboardInterrupt) 0)
                      (RateLimiter.init default_config 0) clock0))))
      <= RateLimitStats.total_requests
           (RateLimiter.stats
              (RateLimiter.limiter
                 (RateLimiter.final
                    (RateLimiter.execute 10
                       (fun _ => mkCall (T := unit)
                                   (Escapes KeyboardInterrupt) 0)
                       (RateLimiter.init default_config 0) clock0)))))%Z
  /\ 0 <= RateLimitStats.success_rate
            (RateLimiter.stats
               (RateLimiter.limiter
                  (RateLimiter.final
                     (RateLimiter.execute 10
                        (fun _ => mkCall (T := unit)
                                    (Escapes KeyboardInterrupt) 0)
                        (RateLimiter.init default_config 0) clock0)))) <= 1.
Proof.
  apply (success_rate_stays_a_rate unit 10
           (fun _ => mkCall (Escapes KeyboardInterrupt) 0)
           (RateLimiter.init default_config 0) clock0).
  - cbn. lia.
  - cbn. lia.
  - cbn. lia.
Defined.

(** The same call, read off: the request is counted and nothing else. *)
Remark interrupted_call_books :
  RateLimiter.result_of
    (RateLimiter.execute 10
       (fun _ => mkCall (T := unit) (Escapes KeyboardInterrupt) 0)
       (RateLimiter.init default_config 0) clock0)
  = RateLimiter.Escaped KeyboardInterrupt
  /\ RateLimiter.stats
       (RateLimiter.limiter
          (RateLimiter.final
             (RateLimiter.execute 10
                (fun _ => mkCall (T := unit) (Escapes KeyboardInterrupt) 0)
                (RateLimiter.init default_config 0) clock0)))
     = RateLimitStats.mk 1 0 0 0 0 0 (Some 0) None.
Proof. split; reflexivity. Qed.

(** X9.  [reset_stats()] clears the books only: a limiter whose breaker
    refuses still refuses after the reset, and the rejected [execute] leaves
    statistics that are zero everywhere but for one rejection, with the
    token bucket and the breaker as they were before the reset. *)
Theorem reset_keeps_circuit :
  forall (T : Type) (fuel : nat) (func : Callable T)
         (rl : RateLimiter.t) (clk : Clock),
    snd (CircuitBreaker.call_allowed (RateLimiter.circuit_breaker rl)
           (wall clk)) = false ->
    RateLimiter.result_of
      (RateLimiter.execute fuel func (RateLimiter.reset_stats rl) clk)
    = RateLimiter.Raise
        (Exception "Circuit breaker is open - service unavailable")
    /\ RateLimiter.limiter
         (RateLimiter.final
            (RateLimiter.execute fuel func (RateLimiter.reset_stats rl) clk))
       = RateLimiter.mk (RateLimiter.config rl) (RateLimiter.token_bucket rl)
           (RateLimiter.circuit_breaker rl)
           (RateLimitStats.mk 0 0 0 0 1 0 None None).
Proof.
  intros T fuel func rl clk Hno.
  pose proof (call_allowed_refused _ _ Hno) as Hsame.
  unfold RateLimiter.execute, RateLimiter.reset_stats.
  cbn [RateLimiter.with_stats RateLimiter.circuit_breaker].
  destruct (CircuitBreaker.call_allowed (RateLimiter.circuit_breaker rl)
              (wall clk)) as [cb ok].
  cbn [fst snd] in Hno, Hsame. subst ok cb.
  cbn. split; reflexivity.
Qed.

Lemma reset_keeps_circuit_witness :
  RateLimiter.result_of
    (RateLimiter.execute 10 always_fails
       (RateLimiter.reset_stats tripped_limiter) (mkClock 10 10))
  = RateLimiter.Raise
      (Exception "Circuit breaker is open - service unavailable")
  /\ RateLimiter.limiter
       (RateLimiter.final
          (RateLimiter.execute 10 always_fails
             (RateLimiter.reset_stats tripped_limiter) (mkClock 10 10)))
     = RateLimiter.mk (RateLimiter.config tripped_limiter)
         (RateLimiter.token_bucket tripped_limiter)
         (RateLimiter.circuit_breaker tripped_limiter)
         (RateLimitStats.mk 0 0 0 0 1 0 None None).
Proof.
  apply (reset_keeps_circuit unit 10 always_fails tripped_limiter
           (mkClock 10 10)).
  reflexivity.
Defined.

(** ** Rate limiter: bounds that hold for every callable *)

Section RateLimiterBounds.

Import RateLimiter.

(** What an attempt can look like: it invokes the callable once; it sleeps
    for backoff at most once, for no more than [max_backoff] and only when
    the incremented [retry_count] is still within [max_retries]; and unless
    it ends [execute] it adds one to [retry_count]. *)
Lemma attempt_shape {T : Type} (func : Callable T) (r r2 : Run)
      (x : Attempt T) (ev : list Event) :
  attempt func r = (x, r2, ev) ->
  work_invocations ev = 1%nat
  /\ (backoff_sleeps ev = []
      \/ exists d s : Q,
           backoff_sleeps ev = [(d, s)]
           /\ d <= max_backoff (config (limiter r))
           /\ (retry_count r + 1 <= max_retries (config (limiter r)))%Z)
  /\ (x = Again -> retry_count r2 = (retry_count r + 1)%Z).
Proof.
  unfold attempt.
  destruct (outcome (func (calls r))) as [v|e|b];
    [|
     |intro H; inversion H; subst; cbn;
      (split; [reflexivity|]); split; [left; reflexivity | discriminate]].
  - intro H; inversion H; subst; cbn.
    split; [reflexivity|]. split; [left; reflexivity | discriminate].
  - cbv zeta.
    destruct (Z.leb_spec (retry_count r + 1)
                         (max_retries (config (limiter r)))) as [Hle|Hgt].
    + destruct (sleep _ _) as [exc|clk2]; intro H; inversion H; subst; cbn.
      * split; [reflexivity|]. split; [left; reflexivity | discriminate].
      * split; [reflexivity|]. split; [|reflexivity].
        right. eexists _, _. split; [reflexivity|].
        split; [apply Q.le_min_r | assumption].
    + intro H; inversion H; subst; cbn.
      split; [reflexivity|]. split; [left; reflexivity | reflexivity].
Qed.

Lemma iteration_shape {T : Type} (func : Callable T) (r r1 : Run)
      (x : Result T + unit) (ev : list Event) :
  iteration func r = (x, r1, ev) ->
  config (limiter r1) = config (limiter r)
  /\ ((work_invocations ev = O /\ backoff_sleeps ev = []
       /\ retry_count r1 = retry_count r)
      \/ (work_invocations ev = 1%nat
          /\ (backoff_sleeps ev = []
              \/ exists d s : Q,
                   backoff_sleeps ev = [(d, s)]
                   /\ d <= max_backoff (config (limiter r))
                   /\ (retry_count r + 1
                       <= max_retries (config (limiter r)))%Z)
          /\ (x = inr tt -> retry_count r1 = (retry_count r + 1)%Z))).
Proof.
  intro Hit. destruct (iteration_backoff _ _ _ _ _ Hit) as [Hcfg _].
  split; [exact Hcfg|]. revert Hit. unfold iteration.
  destruct (acquire r) as [[a ra] eva] eqn:Ea.
  destruct (acquire_frame _ _ _ _ Ea)
    as (Hrc & _ & _ & _ & Hcfga & _ & _ & Hw & Hsl).
  destruct a.
  - destruct (attempt func ra) as [[y r2] ev2] eqn:Eat.
    destruct (attempt_shape _ _ _ _ _ Eat) as (Hw2 & Hs2 & Hrc2).
    rewrite Hcfga, Hrc in *.
    assert (G : work_invocations (eva ++ ev2) = 1%nat
                /\ (backoff_sleeps (eva ++ ev2) = []
                    \/ exists d s : Q,
                         backoff_sleeps (eva ++ ev2) = [(d, s)]
                         /\ d <= max_backoff (config (limiter r))
                         /\ (retry_count r + 1
                             <= max_retries (config (limiter r)))%Z)).
    { rewrite work_invocations_app, backoff_sleeps_app, Hw, Hw2, Hsl.
      split; [reflexivity | exact Hs2]. }
    destruct G as [G1 G2].
    destruct y; intro H; inversion H; subst; right;
      (split; [exact G1 | split; [exact G2|]]); try discriminate.
    intros _. apply Hrc2. reflexivity.
  - intro H; inversion H; subst. left. repeat split; assumption.
  - intro H; inversion H; subst. left. repeat split; assumption.
Qed.

Lemma retry_loop_bounds {T : Type} (func : Callable T) :
  forall (fuel : nat) (r r' : Run) (res : Result T) (evs : list Event),
    retry_loop fuel func r = (res, r', evs) ->
    (Z.of_nat (work_invocations evs)
     <= Z.max 0 (max_retries (config (limiter r)) + 1 - retry_count r))%Z
    /\ (Z.of_nat (List.length (backoff_sleeps evs))
        <= Z.max 0 (max_retries (config (limiter r)) - retry_count r))%Z
    /\ Forall (fun p => fst p <= max_backoff (config (limiter r)))
              (backoff_sleeps evs).
Proof.
  induction fuel as [|fuel IH]; intros r r' res evs Hloop;
    cbn [retry_loop] in Hloop.
  - destruct (_ <=? _)%Z; inversion Hloop; subst; cbn;
      (split; [lia | split; [lia | constructor]]).
  - destruct (Z.leb_spec (retry_count r) (max_retries (config (limiter r))))
      as [Hle|Hgt];
      [|inversion Hloop; subst; cbn;
        (split; [lia | split; [lia | constructor]])].
    destruct (iteration func r) as [[x r1] ev] eqn:Eit.
    destruct (iteration_shape _ _ _ _ _ Eit) as [Hcfg Hshape].
    destruct x as [resx|[]].
    + inversion Hloop; subst.
      destruct Hshape as [(Hw & Hs & _)|(Hw & Hs & _)]; rewrite Hw.
      * rewrite Hs. cbn. split; [lia | split; [lia | constructor]].
      * destruct Hs as [Hs|(d & s & Hs & Hd & Hrc)]; rewrite Hs; cbn.
        -- split; [lia | split; [lia | constructor]].
        -- split; [lia | split; [lia|]].
           constructor; [exact Hd | constructor].
    + destruct (retry_loop fuel func r1) as [[res2 r2] ev2] eqn:El.
      inversion Hloop; subst.
      destruct (IH _ _ _ _ El) as (I1 & I2 & I3).
      rewrite Hcfg in I1, I2, I3.
      rewrite work_invocations_app, backoff_sleeps_app, length_app.
      rewrite !Nat2Z.inj_add.
      destruct Hshape as [(Hw & Hs & Hrc)|(Hw & Hs & Hrc)]; rewrite Hw.
      * rewrite Hs, Hrc in *. cbn [List.length app].
        split; [lia | split; [lia | exact I3]].
      * specialize (Hrc eq_refl). rewrite Hrc in I1, I2.
        destruct Hs as [Hs|(d & s & Hs & Hd & Hrc')]; rewrite Hs.
        -- cbn [List.length app]. split; [lia | split; [lia | exact I3]].
        -- cbn [List.length app]. split; [lia | split; [lia|]].
           constructor; [exact Hd | exact I3].
Qed.

End RateLimiterBounds.

(** X10.  Whatever the callable and the bucket do, one [execute] call
    invokes the callable at most [max_retries + 1] times and sleeps for
    backoff at most [max_retries] times, each time for no more than
    [max_backoff] (no invocation and no sleep when these bounds are
    negative). *)
Theorem execute_effort_bounds :
  forall (T : Type) (fuel : nat) (func : Callable T)
         (rl : RateLimiter.t) (clk : Clock),
    (Z.of_nat (work_invocations
                 (RateLimiter.trace (RateLimiter.execute fuel func rl clk)))
     <= Z.max 0 (max_retries (RateLimiter.config rl) + 1))%Z
    /\ (Z.of_nat (List.length
                    (backoff_sleeps
                       (RateLimiter.trace
                          (RateLimiter.execute fuel func rl clk))))
        <= Z.max 0 (max_retries (RateLimiter.config rl)))%Z
    /\ Forall (fun p => fst p <= max_backoff (RateLimiter.config rl))
              (backoff_sleeps
                 (RateLimiter.trace (RateLimiter.execute fuel func rl clk))).
Proof.
  intros T fuel func rl clk. unfold RateLimiter.execute.
  destruct (CircuitBreaker.call_allowed (RateLimiter.circuit_breaker rl)
              (wall clk)) as [cb [|]].
  - destruct (RateLimiter.retry_loop fuel func
                (RateLimiter.enter (RateLimiter.with_breaker rl cb) clk))
      as [[res r] ev] eqn:El.
    destruct (retry_loop_bounds func _ _ _ _ _ El) as (H1 & H2 & H3).
    cbn [RateLimiter.enter RateLimiter.limiter RateLimiter.with_breaker
         RateLimiter.config RateLimiter.retry_count] in H1, H2, H3.
    rewrite Z.sub_0_r in H1, H2.
    unfold RateLimiter.trace. cbn [snd backoff_sleeps].
    change (work_invocations (EvCallAllowed true :: ev))
      with (work_invocations ev).
    repeat split; assumption.
  - unfold RateLimiter.trace. cbn.
    split; [lia | split; [lia | constructor]].
Qed.

(** ** Rate limiter in working order *)

Section RateLimiterHealthy.

Import RateLimiter.

(** With a positive rate [consume] does not raise. *)
Lemma consume_no_raise (b : TokenBucket.t) (now : Q) (n : Z) (e : PyExc) :
  0 < TokenBucket.rate b -> snd (TokenBucket.consume b now n) <> inl e.
Proof.
  intro Hr. unfold TokenBucket.consume.
  destruct (Qle_bool _ _); cbn; [discriminate|].
  rewrite (Qeq_bool_false_pos _ Hr). cbn. discriminate.
Qed.

(** In working order the admission part always grants: at once, or after
    one sleep of the reported wait. *)
Lemma acquire_healthy (r : Run) :
  healthy r ->
  exists (r1 : Run) (ev : list Event),
    acquire r = (Granted, r1, ev) /\ healthy r1.
Proof.
  intros (Hrate & Hcap & Hlu & Hb & Hm & Hmax).
  unfold acquire.
  pose proof (consume_no_raise (token_bucket (limiter r))
                (monotonic (clock r)) 1) as Hnr.
  pose proof (consume_rate (token_bucket (limiter r))
                (monotonic (clock r)) 1) as Er.
  pose proof (consume_capacity (token_bucket (limiter r))
                (monotonic (clock r)) 1) as Ec.
  pose proof (consume_last_update (token_bucket (limiter r))
                (monotonic (clock r)) 1) as El.
  destruct (TokenBucket.consume (token_bucket (limiter r))
              (monotonic (clock r)) 1) as [b1 [e|[[|] w]]] eqn:E1;
    cbn [fst snd] in *.
  - exfalso. apply (Hnr e Hrate). reflexivity.
  - eexists _, _. split; [reflexivity|].
    unfold healthy. cbn. rewrite Er, Ec, El.
    repeat split; try assumption. apply Qle_refl.
  - destruct (consume_after_wait _ _ _ _ (monotonic (clock r) + w) 1
                Hrate Hcap E1 (Qle_refl _)) as [Hw E2].
    unfold sleep.
    assert (Ew : Qle_bool 0 w = true) by (apply Qle_bool_iff; lra).
    rewrite Ew. cbn [advance monotonic]. rewrite E2.
    eexists _, _. split; [reflexivity|].
    unfold healthy. cbn. repeat split; try assumption. apply Qle_refl.
Qed.

(** An attempt in working order, by what the callable does. *)
Lemma attempt_healthy {T : Type} (func : Callable T) (r : Run) :
  healthy r -> 0 <= duration (func (calls r)) ->
  exists (r2 : Run) (ev : list Event),
    calls r2 = S (calls r)
    /\ config (limiter r2) = config (limiter r)
    /\ CircuitBreaker.config (circuit_breaker (limiter r2))
       = CircuitBreaker.config (circuit_breaker (limiter r))
    /\ match outcome (func (calls r)) with
       | Returns v =>
           attempt func r = (Done v, r2, ev)
           /\ backoff_sleeps ev = []
           /\ circuit_breaker (limiter r2)
              = CircuitBreaker.record_success (circuit_breaker (limiter r))
       | Raises e =>
           attempt func r = (Again, r2, ev)
           /\ healthy r2
           /\ retry_count r2 = (retry_count r + 1)%Z
           /\ last_exception r2 = Some e
           /\ ((retry_count r + 1 <= max_retries (config (limiter r)))%Z ->
               List.length (backoff_sleeps ev) = 1%nat)
           /\ exists t : Q,
                circuit_breaker (limiter r2)
                = CircuitBreaker.record_failure
                    (circuit_breaker (limiter r)) t
       | Escapes b => attempt func r = (AttemptEscaped b, r2, ev)
       end.
Proof.
  intros (Hrate & Hcap & Hlu & Hb & Hm & Hmax) Hd.
  assert (Hcfgf : forall t,
             CircuitBreaker.config
               (CircuitBreaker.record_failure
                  (circuit_breaker (limiter r)) t)
             = CircuitBreaker.config (circuit_breaker (limiter r))).
  { intro t. apply (step_config _ (CircuitBreaker.RecordFailure t)). }
  pose proof (step_config (circuit_breaker (limiter r))
                CircuitBreaker.RecordSuccess) as Hcfgs.
  cbn [CircuitBreaker.step fst] in Hcfgs.
  destruct (attempt func r) as [[x r2] ev] eqn:Eat.
  exists r2, ev. unfold attempt in Eat.
  destruct (outcome (func (calls r))) as [v|e|b];
    [|
     |inversion Eat; subst;
      cbn [calls limiter with_breaker with_stats config circuit_breaker];
      repeat split].
  - inversion Eat; subst.
    cbn [calls limiter with_breaker with_stats config circuit_breaker
         backoff_sleeps].
    rewrite Hcfgs. repeat split.
  - cbv zeta in Eat.
    destruct (Z.leb_spec (retry_count r + 1)
                         (max_retries (config (limiter r)))) as [Hle|Hgt].
    + unfold sleep in Eat.
      assert (E : Qle_bool 0 (Qmin (backoff r)
                                   (max_backoff (config (limiter r))))
                  = true).
      { apply Qle_bool_iff. apply Q.min_glb; assumption. }
      rewrite E in Eat. inversion Eat; subst. unfold healthy.
      cbn [calls limiter with_breaker with_stats config circuit_breaker
           token_bucket clock backoff retry_count last_exception
           advance monotonic backoff_sleeps List.length].
      rewrite Hcfgf.
      repeat split; try assumption; try reflexivity.
      * pose proof (Q.min_glb _ _ _ Hb Hmax). lra.
      * apply Qmult_le_0_compat; assumption.
      * eexists. reflexivity.
    + inversion Eat; subst. unfold healthy.
      cbn [calls limiter with_breaker with_stats config circuit_breaker
           token_bucket clock backoff retry_count last_exception
           advance monotonic backoff_sleeps List.length].
      rewrite Hcfgf.
      repeat split; try assumption; try reflexivity.
      * lra.
      * intro Habs. lia.
      * eexists. reflexivity.
Qed.

(** An iteration in working order: the callable is invoked exactly once. *)
Lemma iteration_healthy {T : Type} (func : Callable T) (r : Run) :
  healthy r -> 0 <= duration (func (calls r)) ->
  exists (r1 : Run) (ev : list Event),
    calls r1 = S (calls r)
    /\ config (limiter r1) = config (limiter r)
    /\ CircuitBreaker.config (circuit_breaker (limiter r1))
       = CircuitBreaker.config (circuit_breaker (limiter r))
    /\ work_invocations ev = 1%nat
    /\ match outcome (func (calls r)) with
       | Returns v =>
           iteration func r = (inl (Return v), r1, ev)
           /\ backoff_sleeps ev = []
           /\ circuit_breaker (limiter r1)
              = CircuitBreaker.record_success (circuit_breaker (limiter r))
       | Raises e =>
           iteration func r = (inr tt, r1, ev)
           /\ healthy r1
           /\ retry_count r1 = (retry_count r + 1)%Z
           /\ last_exception r1 = Some e
           /\ ((retry_count r + 1 <= max_retries (config (limiter r)))%Z ->
               List.length (backoff_sleeps ev) = 1%nat)
           /\ exists t : Q,
                circuit_breaker (limiter r1)
                = CircuitBreaker.record_failure
                    (circuit_breaker (limiter r)) t
       | Escapes b => iteration func r = (inl (Escaped b), r1, ev)
       end.
Proof.
  intros Hh Hd.
  destruct (acquire_healthy r Hh) as (ra & eva & Ea & Hha).
  destruct (acquire_frame _ _ _ _ Ea)
    as (Hrc & _ & _ & Hcalls & Hcfg & Hcb & _ & Hw & Hsl).
  destruct (attempt_healthy func ra Hha) as (r2 & ev2 & A1 & A2 & A3 & A4).
  { rewrite Hcalls. exact Hd. }
  exists r2, (eva ++ ev2).
  rewrite Hcalls, Hcfg, Hcb, Hrc in *.
  split; [exact A1|]. split; [exact A2|]. split; [exact A3|].
  unfold iteration. rewrite Ea.
  destruct (outcome (func (calls r))) as [v|e|b].
  - destruct A4 as (Eat & S1 & S2).
    destruct (attempt_shape _ _ _ _ _ Eat) as (Hw2 & _).
    rewrite Eat, work_invocations_app, backoff_sleeps_app, Hw, Hw2, Hsl, S1.
    repeat split. exact S2.
  - destruct A4 as (Eat & S1 & S2 & S3 & S4 & S5).
    destruct (attempt_shape _ _ _ _ _ Eat) as (Hw2 & _).
    rewrite Eat, work_invocations_app, backoff_sleeps_app, Hw, Hw2, Hsl.
    cbn [app].
    exact (conj eq_refl
             (conj eq_refl (conj S1 (conj S2 (conj S3 (conj S4 S5)))))).
  - destruct (attempt_shape _ _ _ _ _ A4) as (Hw2 & _).
    rewrite A4, work_invocations_app, Hw, Hw2. split; reflexivity.
Qed.

End RateLimiterHealthy.

Section RateLimiterLoops.

Import RateLimiter.

Lemma ready_enter (rl : t) (cb : CircuitBreaker.t) (clk : Clock) :
  ready rl clk -> healthy (enter (with_breaker rl cb) clk).
Proof. intro H. exact H. Qed.

(** In working order, [j] raising invocations followed by a returning one,
    with [j] retries left: the loop returns that value after [j + 1]
    invocations and [j] backoff sleeps, through [record_success()]. *)
Lemma retry_loop_recovers {T : Type} (func : Callable T) (v : T) :
  (forall i : nat, 0 <= duration (func i)) ->
  forall (j fuel : nat) (r : Run),
    healthy r ->
    (forall i : nat,
        (calls r <= i < calls r + j)%nat ->
        exists e : PyExc, outcome (func i) = Raises e) ->
    outcome (func (calls r + j)%nat) = Returns v ->
    (retry_count r + Z.of_nat j <= max_retries (config (limiter r)))%Z ->
    (j + 1 <= fuel)%nat ->
    exists (r' : Run) (evs : list Event),
      retry_loop fuel func r = (Return v, r', evs)
      /\ work_invocations evs = (j + 1)%nat
      /\ List.length (backoff_sleeps evs) = j
      /\ CircuitBreaker.failure_count (circuit_breaker (limiter r')) = 0%Z.
Proof.
  intro Hd. induction j as [|j IH]; intros fuel r Hh Hfails Hret Hrc Hfuel;
    (destruct fuel as [|fuel]; [lia|]); cbn [retry_loop];
    (destruct (Z.leb_spec (retry_count r) (max_retries (config (limiter r))))
      as [Hle|Hgt]; [|lia]);
    destruct (iteration_healthy func r Hh (Hd _))
      as (r1 & ev & Hcalls & Hcfg & _ & Hw & Hcase).
  - rewrite Nat.add_0_r in Hret. rewrite Hret in Hcase.
    destruct Hcase as (Eit & Hsl & Hcb). rewrite Eit.
    exists r1, ev. rewrite Hw, Hsl, Hcb.
    split; [reflexivity|]. split; [reflexivity|]. split; [reflexivity|].
    unfold CircuitBreaker.record_success. reflexivity.
  - destruct (Hfails (calls r)) as [e He]; [lia|].
    rewrite He in Hcase.
    destruct Hcase as (Eit & Hh1 & Hrc1 & _ & Hsl & _). rewrite Eit.
    destruct (IH fuel r1 Hh1) as (r' & evs & El & I1 & I2 & I3).
    + intros i Hi. apply Hfails. lia.
    + rewrite Hcalls. replace (S (calls r) + j)%nat
        with (calls r + S j)%nat by lia. exact Hret.
    + rewrite Hcfg, Hrc1. lia.
    + lia.
    + rewrite El. exists r', (ev ++ evs). split; [reflexivity|].
      rewrite work_invocations_app, backoff_sleeps_app, length_app.
      rewrite Hw, I1, I2, Hsl by lia.
      split; [lia|]. split; [lia | exact I3].
Qed.

Lemma record_failure_stamp (cb : CircuitBreaker.t) (t : Q) :
  CircuitBreaker.last_failure_time (CircuitBreaker.record_failure cb t)
  = Some t.
Proof.
  unfold CircuitBreaker.record_failure. cbn.
  destruct (CircuitBreaker.state cb); cbn; try reflexivity;
    destruct (_ <=? _)%Z; reflexivity.
Qed.

Lemma will_open_step (cb : CircuitBreaker.t) (t : Q) (k : Z) :
  CircuitBreaker.will_open cb (k + 1) ->
  CircuitBreaker.will_open (CircuitBreaker.record_failure cb t) k.
Proof.
  unfold CircuitBreaker.will_open, CircuitBreaker.record_failure. cbn.
  intros [Hne|Hth]; destruct (CircuitBreaker.state cb) eqn:E; cbn;
    try congruence;
    try (destruct (_ <=? _)%Z; cbn; rewrite ?E; left; discriminate);
    try (left; discriminate).
  destruct (Z.leb_spec (failure_threshold (CircuitBreaker.config cb))
                       (CircuitBreaker.failure_count cb + 1)); cbn.
  - left. discriminate.
  - right. lia.
Qed.

Lemma will_open_last (cb : CircuitBreaker.t) (t : Q) :
  CircuitBreaker.will_open cb 1 ->
  CircuitBreaker.state (CircuitBreaker.record_failure cb t) = OPEN.
Proof.
  unfold CircuitBreaker.will_open, CircuitBreaker.record_failure. cbn.
  intros [Hne|Hth]; destruct (CircuitBreaker.state cb) eqn:E; cbn;
    try congruence;
    try (destruct (_ <=? _)%Z; cbn; rewrite ?E; reflexivity);
    try reflexivity.
  destruct (Z.leb_spec (failure_threshold (CircuitBreaker.config cb))
                       (CircuitBreaker.failure_count cb + 1)); cbn;
    [reflexivity | lia].
Qed.

(** In working order, a callable that always raises and a breaker that the
    remaining attempts are enough to open: the loop leaves the breaker
    [OPEN], stamped with the time of a failure. *)
Lemma retry_loop_trips {T : Type} (func : Callable T) :
  (forall i : nat, 0 <= duration (func i)) ->
  (forall i : nat, exists e : PyExc, outcome (func i) = Raises e) ->
  forall (fuel : nat) (r r' : Run) (res : Result T) (evs : list Event),
    healthy r ->
    (retry_count r <= max_retries (config (limiter r)))%Z ->
    (Z.to_nat (max_retries (config (limiter r)) + 1 - retry_count r)
     <= fuel)%nat ->
    CircuitBreaker.will_open (circuit_breaker (limiter r))
      (max_retries (config (limiter r)) + 1 - retry_count r) ->
    retry_loop fuel func r = (res, r', evs) ->
    CircuitBreaker.state (circuit_breaker (limiter r')) = OPEN
    /\ (exists Tf : Q,
          CircuitBreaker.last_failure_time (circuit_breaker (limiter r'))
          = Some Tf)
    /\ CircuitBreaker.config (circuit_breaker (limiter r'))
       = CircuitBreaker.config (circuit_breaker (limiter r)).
Proof.
  intros Hd Hfail.
  induction fuel as [|fuel IH];
    intros r r' res evs Hh Hle Hfuel Hopen Hloop; [lia|].
  cbn [retry_loop] in Hloop.
  apply Z.leb_le in Hle. rewrite Hle in Hloop. apply Z.leb_le in Hle.
  destruct (iteration_healthy func r Hh (Hd _))
    as (r1 & ev & Hcalls & Hcfg & Hcbcfg & _ & Hcase).
  destruct (Hfail (calls r)) as [e He]. rewrite He in Hcase.
  destruct Hcase as (Eit & Hh1 & Hrc & _ & _ & (t & Hcb)).
  rewrite Eit in Hloop.
  destruct (retry_loop fuel func r1) as [[res2 r2] ev2] eqn:El.
  inversion Hloop; subst.
  destruct (Z_le_gt_dec (retry_count r1) (max_retries (config (limiter r1))))
    as [Hmore|Hdone].
  - destruct (IH r1 r' res ev2 Hh1 Hmore) as (I1 & I2 & I3).
    + rewrite Hcfg, Hrc. lia.
    + rewrite Hcb, Hcfg, Hrc. apply will_open_step.
      replace (max_retries (config (limiter r)) + 1 - (retry_count r + 1) + 1)%Z
        with (max_retries (config (limiter r)) + 1 - retry_count r)%Z by lia.
      exact Hopen.
    + exact El.
    + rewrite I3, Hcbcfg. repeat split; assumption.
  - assert (Hexit : retry_loop fuel func r1
                    = (Raise (match last_exception r1 with
                              | Some e => e
                              | None => Exception "All retry attempts failed"
                              end), r1, [])).
    { destruct fuel; cbn [retry_loop];
        destruct (Z.leb_spec (retry_count r1)
                             (max_retries (config (limiter r1))));
        try lia; reflexivity. }
    rewrite Hexit in El. inversion El; subst.
    rewrite Hcb. split; [|split].
    + apply will_open_last.
      replace 1%Z
        with (max_retries (config (limiter r)) + 1 - retry_count r)%Z.
      * exact Hopen.
      * rewrite Hcfg, Hrc in Hdone. lia.
    + exists t. apply record_failure_stamp.
    + rewrite <- Hcb. exact Hcbcfg.
Qed.

End RateLimiterLoops.

(** X12.  Retry until success: for a limiter in working order that the
    breaker admits, a callable that raises on its first [j] invocations and
    returns [v] on the next, with [j <= max_retries], makes [execute] return
    [v] after exactly [j + 1] invocations and [j] backoff sleeps;
    [successful_requests] grows by one, [failed_requests] by [j], and the
    breaker's [failure_count] is zero afterwards. *)
Theorem execute_retries_until_success :
  forall (T : Type) (fuel : nat) (func : Callable T)
         (rl : RateLimiter.t) (clk : Clock) (j : nat) (v : T),
    RateLimiter.ready rl clk ->
    (forall i : nat, 0 <= duration (func i)) ->
    snd (CircuitBreaker.call_allowed (RateLimiter.circuit_breaker rl)
           (wall clk)) = true ->
    (forall i : nat,
        (i < j)%nat -> exists e : PyExc, outcome (func i) = Raises e) ->
    outcome (func j) = Returns v ->
    (Z.of_nat j <= max_retries (RateLimiter.config rl))%Z ->
    (j + 1 <= fuel)%nat ->
    RateLimiter.result_of (RateLimiter.execute fuel func rl clk)
    = RateLimiter.Return v
    /\ work_invocations
         (RateLimiter.trace (RateLimiter.execute fuel func rl clk))
       = (j + 1)%nat
    /\ List.length
         (backoff_sleeps
            (RateLimiter.trace (RateLimiter.execute fuel func rl clk))) = j
    /\ RateLimitStats.successful_requests
         (RateLimiter.stats
            (RateLimiter.limiter
               (RateLimiter.final (RateLimiter.execute fuel func rl clk))))
       = (RateLimitStats.successful_requests (RateLimiter.stats rl) + 1)%Z
    /\ RateLimitStats.failed_requests
         (RateLimiter.stats
            (RateLimiter.limiter
               (RateLimiter.final (RateLimiter.execute fuel func rl clk))))
       = (RateLimitStats.failed_requests (RateLimiter.stats rl)
          + Z.of_nat j)%Z
    /\ CircuitBreaker.failure_count
         (RateLimiter.circuit_breaker
            (RateLimiter.limiter
               (RateLimiter.final (RateLimiter.execute fuel func rl clk))))
       = 0%Z.
Proof.
  intros T fuel func rl clk j v Hready Hd Hgate Hfails Hret Hj Hfuel.
  unfold RateLimiter.execute.
  destruct (CircuitBreaker.call_allowed (RateLimiter.circuit_breaker rl)
              (wall clk)) as [cb ok].
  cbn [snd] in Hgate. subst ok.
  destruct (retry_loop_recovers func v Hd j fuel
              (RateLimiter.enter (RateLimiter.with_breaker rl cb) clk)
              (ready_enter rl cb clk Hready))
    as (r' & evs & El & H1 & H2 & H3).
  - intros i Hi. apply Hfails. cbn in Hi. lia.
  - exact Hret.
  - cbn. lia.
  - exact Hfuel.
  - rewrite El.
    destruct (retry_loop_accounted func _ _ _ _ _ El)
      as [(A1 & A2 & A3 & A4 & A5 & A6 & A7) Hs].
    unfold RateLimiter.result_of, RateLimiter.trace, RateLimiter.final.
    cbn [fst snd backoff_sleeps].
    change (work_invocations (EvCallAllowed true :: evs))
      with (work_invocations evs).
    cbn [RateLimiter.enter RateLimiter.limiter RateLimiter.with_breaker
         RateLimiter.stats RateLimiter.returned RateLimiter.escaped] in *.
    rewrite H1 in A2.
    split; [reflexivity|]. split; [exact H1|]. split; [exact H2|].
    split; [lia|]. split; [lia | exact H3].
Qed.

(** A callable that raises twice and then returns, at once each time. *)
Lemma execute_retries_until_success_witness :
  RateLimiter.result_of
    (RateLimiter.execute 10
       (fun i => if (i <? 2)%nat
                 then mkCall (Raises (Exception "fail")) 0
                 else mkCall (Returns tt) 0)
       (RateLimiter.init default_config 0) clock0)
  = RateLimiter.Return tt
  /\ work_invocations
       (RateLimiter.trace
          (RateLimiter.execute 10
             (fun i => if (i <? 2)%nat
                       then mkCall (Raises (Exception "fail")) 0
                       else mkCall (Returns tt) 0)
             (RateLimiter.init default_config 0) clock0))
     = (2 + 1)%nat
  /\ List.length
       (backoff_sleeps
          (RateLimiter.trace
             (RateLimiter.execute 10
                (fun i => if (i <? 2)%nat
                          then mkCall (Raises (Exception "fail")) 0
                          else mkCall (Returns tt) 0)
                (RateLimiter.init default_config 0) clock0))) = 2%nat
  /\ RateLimitStats.successful_requests
       (RateLimiter.stats
          (RateLimiter.limiter
             (RateLimiter.final
                (RateLimiter.execute 10
                   (fun i => if (i <? 2)%nat
                             then mkCall (Raises (Exception "fail")) 0
                             else mkCall (Returns tt) 0)
                   (RateLimiter.init default_config 0) clock0))))
     = (RateLimitStats.successful_requests
          (RateLimiter.stats (RateLimiter.init default_config 0)) + 1)%Z
  /\ RateLimitStats.failed_requests
       (RateLimiter.stats
          (RateLimiter.limiter
             (RateLimiter.final
                (RateLimiter.execute 10
                   (fun i => if (i <? 2)%nat
                             then mkCall (Raises (Exception "fail")) 0
                             else mkCall (Returns tt) 0)
                   (RateLimiter.init default_config 0) clock0))))
     = (RateLimitStats.failed_requests
          (RateLimiter.stats (RateLimiter.init default_config 0))
        + Z.of_nat 2)%Z
  /\ CircuitBreaker.failure_count
       (RateLimiter.circuit_breaker
          (RateLimiter.limiter
             (RateLimiter.final
                (RateLimiter.execute 10
                   (fun i => if (i <? 2)%nat
                             then mkCall (Raises (Exception "fail")) 0
                             else mkCall (Returns tt) 0)
                   (RateLimiter.init default_config 0) clock0))))
     = 0%Z.
Proof.
  apply (execute_retries_until_success unit 10
           (fun i => if (i <? 2)%nat
                     then mkCall (Raises (Exception "fail")) 0
                     else mkCall (Returns tt) 0)
           (RateLimiter.init default_config 0) clock0 2 tt).
  - unfold RateLimiter.ready. cbn.
    repeat split; try discriminate; lia.
  - intro i. destruct (i <? 2)%nat; cbn; discriminate.
  - reflexivity.
  - intros i Hi. exists (Exception "fail").
    apply Nat.ltb_lt in Hi. rewrite Hi. reflexivity.
  - reflexivity.
  - cbn. lia.
  - lia.
Defined.

Lemma call_allowed_keeps (cb : CircuitBreaker.t) (now : Q) :
  CircuitBreaker.config (fst (CircuitBreaker.call_allowed cb now))
  = CircuitBreaker.config cb
  /\ CircuitBreaker.failure_count (fst (CircuitBreaker.call_allowed cb now))
     = CircuitBreaker.failure_count cb.
Proof.
  unfold CircuitBreaker.call_allowed.
  destruct (CircuitBreaker.state cb); cbn; try (split; reflexivity).
  - destruct (CircuitBreaker.last_failure_time cb); [|split; reflexivity].
    cbv zeta. destruct (Qle_bool _ _); split; reflexivity.
  - destruct (_ <? _)%Z; split; reflexivity.
Qed.

(** X13.  Exhausted retries trip the breaker for the next call: for a
    limiter in working order that the breaker admits, [max_retries >= 0]
    and a callable that always raises, when
    [failure_threshold <= failure_count + max_retries + 1] the [execute]
    call leaves the breaker [OPEN] with the time [Tf] of a failure, and any
    later [execute] on that limiter entered before
    [Tf + recovery_timeout] raises "service unavailable" without invoking
    its callable. *)
Theorem exhausted_retries_open_circuit :
  forall (T : Type) (fuel : nat) (func : Callable T)
         (rl : RateLimiter.t) (clk : Clock),
    RateLimiter.ready rl clk ->
    (forall i : nat, 0 <= duration (func i)) ->
    (forall i : nat, exists e : PyExc, outcome (func i) = Raises e) ->
    snd (CircuitBreaker.call_allowed (RateLimiter.circuit_breaker rl)
           (wall clk)) = true ->
    (0 <= max_retries (RateLimiter.config rl))%Z ->
    (failure_threshold (CircuitBreaker.config (RateLimiter.circuit_breaker rl))
     <= CircuitBreaker.failure_count (RateLimiter.circuit_breaker rl)
        + max_retries (RateLimiter.config rl) + 1)%Z ->
    (Z.to_nat (max_retries (RateLimiter.config rl)) + 1 <= fuel)%nat ->
    CircuitBreaker.state
      (RateLimiter.circuit_breaker
         (RateLimiter.limiter
            (RateLimiter.final (RateLimiter.execute fuel func rl clk))))
    = OPEN
    /\ exists Tf : Q,
         CircuitBreaker.last_failure_time
           (RateLimiter.circuit_breaker
              (RateLimiter.limiter
                 (RateLimiter.final (RateLimiter.execute fuel func rl clk))))
         = Some Tf
         /\ forall (U : Type) (fuel2 : nat) (func2 : Callable U)
                   (clk2 : Clock),
              wall clk2
              < Tf + recovery_timeout
                       (CircuitBreaker.config
                          (RateLimiter.circuit_breaker rl)) ->
              RateLimiter.result_of
                (RateLimiter.execute fuel2 func2
                   (RateLimiter.limiter
                      (RateLimiter.final
                         (RateLimiter.execute fuel func rl clk))) clk2)
              = RateLimiter.Raise
                  (Exception "Circuit breaker is open - service unavailable")
              /\ work_invocations
                   (RateLimiter.trace
                      (RateLimiter.execute fuel2 func2
                         (RateLimiter.limiter
                            (RateLimiter.final
                               (RateLimiter.execute fuel func rl clk)))
                         clk2)) = O.
Proof.
  intros T fuel func rl clk Hready Hd Hfail Hgate Hm Hth Hfuel.
  pose proof (call_allowed_keeps (RateLimiter.circuit_breaker rl) (wall clk))
    as [Hkc Hkf].
  remember (RateLimiter.execute fuel func rl clk) as out eqn:Eout.
  unfold RateLimiter.execute in Eout.
  destruct (CircuitBreaker.call_allowed (RateLimiter.circuit_breaker rl)
              (wall clk)) as [cb ok].
  cbn [fst snd] in Hgate, Hkc, Hkf. subst ok.
  destruct (RateLimiter.retry_loop fuel func
              (RateLimiter.enter (RateLimiter.with_breaker rl cb) clk))
    as [[res r] ev] eqn:El.
  subst out. unfold RateLimiter.final. cbn [fst snd].
  destruct (retry_loop_trips func Hd Hfail fuel _ r res ev
              (ready_enter rl cb clk Hready)) as (H1 & (Tf & H2) & H3).
  - cbn. lia.
  - cbn. rewrite Z.sub_0_r. lia.
  - right. cbn. rewrite Hkc, Hkf. lia.
  - exact El.
  - cbn [RateLimiter.enter RateLimiter.limiter RateLimiter.with_breaker
         RateLimiter.circuit_breaker] in H3.
    split; [exact H1|]. exists Tf. split; [exact H2|].
    intros U fuel2 func2 clk2 Hearly.
    unfold RateLimiter.execute.
    rewrite (call_allowed_open_early _ Tf (wall clk2) H1 H2).
    + split; reflexivity.
    + rewrite H3, Hkc. exact Hearly.
Qed.

Lemma exhausted_retries_open_circuit_witness :
  CircuitBreaker.state
    (RateLimiter.circuit_breaker
       (RateLimiter.limiter
          (RateLimiter.final
             (RateLimiter.execute 10 always_fails
                (RateLimiter.init
                   (mkConfig 1 5 3 2 30 2 3 60 3 true true) 0) clock0))))
  = OPEN
  /\ exists Tf : Q,
       CircuitBreaker.last_failure_time
         (RateLimiter.circuit_breaker
            (RateLimiter.limiter
               (RateLimiter.final
                  (RateLimiter.execute 10 always_fails
                     (RateLimiter.init
                        (mkConfig 1 5 3 2 30 2 3 60 3 true true) 0)
                     clock0))))
       = Some Tf
       /\ forall (U : Type) (fuel2 : nat) (func2 : Callable U)
                 (clk2 : Clock),
            wall clk2
            < Tf + recovery_timeout
                     (CircuitBreaker.config
                        (RateLimiter.circuit_breaker
                           (RateLimiter.init
                              (mkConfig 1 5 3 2 30 2 3 60 3 true true) 0))) ->
            RateLimiter.result_of
              (RateLimiter.execute fuel2 func2
                 (RateLimiter.limiter
                    (RateLimiter.final
                       (RateLimiter.execute 10 always_fails
                          (RateLimiter.init
                             (mkConfig 1 5 3 2 30 2 3 60 3 true true) 0)
                          clock0))) clk2)
            = RateLimiter.Raise
                (Exception "Circuit breaker is open - service unavailable")
            /\ work_invocations
                 (RateLimiter.trace
                    (RateLimiter.execute fuel2 func2
                       (RateLimiter.limiter
                          (RateLimiter.final
                             (RateLimiter.execute 10 always_fails
                                (RateLimiter.init
                                   (mkConfig 1 5 3 2 30 2 3 60 3 true true)
                                   0) clock0))) clk2)) = O.
Proof.
  apply (exhausted_retries_open_circuit unit 10 always_fails
           (RateLimiter.init (mkConfig 1 5 3 2 30 2 3 60 3 true true) 0)
           clock0).
  - unfold RateLimiter.ready. cbn.
    repeat split; try discriminate; lia.
  - intro i. cbn. discriminate.
  - intro i. exists (Exception "fail"). reflexivity.
  - reflexivity.
  - cbn. lia.
  - cbn. lia.
  - cbn. lia.
Defined.

(** In working order a first invocation that returns ends the loop at once,
    through [record_success()]. *)
Lemma retry_loop_first_try {T : Type} (func : Callable T) (v : T)
      (fuel : nat) (r : RateLimiter.Run) :
  RateLimiter.healthy r ->
  0 <= duration (func (RateLimiter.calls r)) ->
  outcome (func (RateLimiter.calls r)) = Returns v ->
  (RateLimiter.retry_count r
   <= max_retries (RateLimiter.config (RateLimiter.limiter r)))%Z ->
  exists (r1 : RateLimiter.Run) (ev : list Event),
    RateLimiter.retry_loop (S fuel) func r = (RateLimiter.Return v, r1, ev)
    /\ work_invocations ev = 1%nat
    /\ RateLimiter.circuit_breaker (RateLimiter.limiter r1)
       = CircuitBreaker.record_success
           (RateLimiter.circuit_breaker (RateLimiter.limiter r)).
Proof.
  intros Hh Hd Hret Hle. cbn [RateLimiter.retry_loop].
  apply Z.leb_le in Hle. rewrite Hle.
  destruct (iteration_healthy func r Hh Hd)
    as (r1 & ev & _ & _ & _ & Hw & Hcase).
  rewrite Hret in Hcase. destruct Hcase as (Eit & _ & Hcb).
  rewrite Eit. exists r1, ev. repeat split; assumption.
Qed.

(** X14.  A successful probe closes the circuit: for a limiter in working
    order whose breaker is [OPEN] with its last failure at [Tf], an
    [execute] call entered at or after [Tf + recovery_timeout] whose first
    invocation returns [v] returns [v] after that single invocation and
    leaves the breaker [CLOSED] with [failure_count] and [half_open_calls]
    at zero. *)
Theorem probe_success_closes_circuit :
  forall (T : Type) (fuel : nat) (func : Callable T)
         (rl : RateLimiter.t) (clk : Clock) (Tf : Q) (v : T),
    RateLimiter.ready rl clk ->
    0 <= duration (func O) ->
    CircuitBreaker.state (RateLimiter.circuit_breaker rl) = OPEN ->
    CircuitBreaker.last_failure_time (RateLimiter.circuit_breaker rl)
    = Some Tf ->
    Tf + recovery_timeout
           (CircuitBreaker.config (RateLimiter.circuit_breaker rl))
    <= wall clk ->
    outcome (func O) = Returns v ->
    (0 <= max_retries (RateLimiter.config rl))%Z ->
    (1 <= fuel)%nat ->
    RateLimiter.result_of (RateLimiter.execute fuel func rl clk)
    = RateLimiter.Return v
    /\ work_invocations
         (RateLimiter.trace (RateLimiter.execute fuel func rl clk)) = 1%nat
    /\ RateLimiter.circuit_breaker
         (RateLimiter.limiter
            (RateLimiter.final (RateLimiter.execute fuel func rl clk)))
       = CircuitBreaker.mk
           (CircuitBreaker.config (RateLimiter.circuit_breaker rl))
           CLOSED 0 (Some Tf) 0.
Proof.
  intros T fuel func rl clk Tf v Hready Hd Hs Hl Hdue Hret Hm Hfuel.
  unfold RateLimiter.execute.
  rewrite (call_allowed_open_due _ Tf (wall clk) Hs Hl Hdue).
  destruct fuel as [|fuel]; [lia|].
  destruct (retry_loop_first_try func v fuel
              (RateLimiter.enter
                 (RateLimiter.with_breaker rl
                    (CircuitBreaker._transition_to
                       (RateLimiter.circuit_breaker rl) HALF_OPEN)) clk))
    as (r1 & ev & El & Hw & Hcb).
  - apply ready_enter. exact Hready.
  - exact Hd.
  - exact Hret.
  - cbn. lia.
  - rewrite El.
    unfold RateLimiter.result_of, RateLimiter.trace, RateLimiter.final.
    cbn [fst snd].
    change (work_invocations (EvCallAllowed true :: ev))
      with (work_invocations ev).
    split; [reflexivity|]. split; [exact Hw|].
    rewrite Hcb. cbn. rewrite Hl. reflexivity.
Qed.

Lemma probe_success_closes_circuit_witness :
  RateLimiter.result_of
    (RateLimiter.execute 10 (fun _ => mkCall (Returns tt) 0)
       tripped_limiter (mkClock 60 60))
  = RateLimiter.Return tt
  /\ work_invocations
       (RateLimiter.trace
          (RateLimiter.execute 10 (fun _ => mkCall (Returns tt) 0)
             tripped_limiter (mkClock 60 60))) = 1%nat
  /\ RateLimiter.circuit_breaker
       (RateLimiter.limiter
          (RateLimiter.final
             (RateLimiter.execute 10 (fun _ => mkCall (Returns tt) 0)
                tripped_limiter (mkClock 60 60))))
     = CircuitBreaker.mk
         (CircuitBreaker.config
            (RateLimiter.circuit_breaker tripped_limiter))
         CLOSED 0 (Some 0) 0.
Proof.
  apply (probe_success_closes_circuit unit 10
           (fun _ => mkCall (Returns tt) 0) tripped_limiter
           (mkClock 60 60) 0 tt).
  - unfold RateLimiter.ready. cbn.
    repeat split; try discriminate; lia.
  - cbn. discriminate.
  - reflexivity.
  - reflexivity.
  - cbn. discriminate.
  - reflexivity.
  - cbn. lia.
  - lia.
Defined.

(** ** Rate limiter: how a call can end *)

Section RateLimiterEnds.

Import RateLimiter.






End RateLimiterEnds.



(** ** Rate limiter: a call that has to wait *)




